(** * Packet dissection and accounting dispatch of sniffer.cpp

    A shallow embedding of [got_packet] and [dump_UDP_packet]
    (src/net_traffic_processwise/sniffer.cpp) together with the
    properties of the dissection pipeline, followed by [print_payload],
    [print_hex_ascii_line] and [main] of the same file.

    Modelling conventions
    - A captured frame is the list of the bytes libpcap delivered; the
      [packet] pointer of the source is an offset into that list.  A load
      from an offset that is not among the captured bytes has no defined
      result in C; here it stops the run with [ReadPast].
    - The host is little endian: a [u_short] overlaid on two bytes has the
      first byte as its low half, and [ntohs] swaps the halves.
    - [update_byte_count] and [plocal_ip] are declared in sniffer.h, which is
      not part of the sources.  The calls are recorded as events, with the
      arguments as the call site computes them; [plocal_ip] is a parameter.
    - [ENABLE_CONSOLE_MESSAGES] is taken as not defined.
    - C strings are [string]s holding the characters before the NUL. *)

From Stdlib Require Import ZArith List Bool Lia.
From Stdlib Require Import Strings.String Strings.Ascii Strings.Byte.
From Stdlib Require Import DecimalString.
From Stdlib Require DecimalPos DecimalZ.
Import ListNotations.

Local Open Scope string_scope.
Local Open Scope Z_scope.

(** ** Loads from the captured bytes *)

Inductive mem (A : Type) : Type :=
| Val (a : A)
| ReadPast (off : Z).

Arguments Val {A} a.
Arguments ReadPast {A} off.

Definition bind {A B : Type} (m : mem A) (k : A -> mem B) : mem B :=
  match m with
  | Val a => k a
  | ReadPast off => ReadPast off
  end.

Notation "x <- m ;; k" := (bind m (fun x => k))
  (at level 61, m at next level, right associativity).

Definition u_char (b : byte) : Z := Z.of_N (Byte.to_N b).

Definition captured (packet : list byte) : Z := Z.of_nat (List.length packet).

(** The byte at [off], 0 where nothing was captured; used in statements. *)
Definition byte_at (packet : list byte) (off : Z) : Z :=
  match nth_error packet (Z.to_nat off) with
  | Some b => u_char b
  | None => 0
  end.

Definition load8 (packet : list byte) (off : Z) : mem Z :=
  if off <? 0 then ReadPast off
  else match nth_error packet (Z.to_nat off) with
       | Some b => Val (u_char b)
       | None => ReadPast off
       end.

(** A [u_short] field read through a struct overlay. *)
Definition load16 (packet : list byte) (off : Z) : mem Z :=
  b0 <- load8 packet off ;;
  b1 <- load8 packet (off + 1) ;;
  Val (Z.lor b0 (Z.shiftl b1 8)).

(** A 32-bit field ([in_addr.s_addr]) read through a struct overlay. *)
Definition load32 (packet : list byte) (off : Z) : mem Z :=
  lo <- load16 packet off ;;
  hi <- load16 packet (off + 2) ;;
  Val (Z.lor lo (Z.shiftl hi 16)).

Definition ntohs (x : Z) : Z :=
  Z.lor (Z.shiftl (Z.land x 255) 8) (Z.land (Z.shiftr x 8) 255).

(** The big-endian 16-bit value at [off]; used in statements. *)
Definition be16 (packet : list byte) (off : Z) : Z :=
  byte_at packet off * 256 + byte_at packet (off + 1).

(** The value of an overlaid 32-bit field; used in statements. *)
Definition le32 (packet : list byte) (off : Z) : Z :=
  Z.lor (Z.lor (byte_at packet off) (Z.shiftl (byte_at packet (off + 1)) 8))
        (Z.shiftl (Z.lor (byte_at packet (off + 2))
                         (Z.shiftl (byte_at packet (off + 2 + 1)) 8)) 16).

(** ** Library functions used by the source *)

(** [std::to_string(int)] *)
Definition to_string (n : Z) : string := NilZero.string_of_int (Z.to_int n).

(** [inet_ntoa]: dotted decimal, the bytes in memory order. *)
Definition inet_ntoa (s_addr : Z) : string :=
  to_string (Z.land s_addr 255) ++ "." ++
  to_string (Z.land (Z.shiftr s_addr 8) 255) ++ "." ++
  to_string (Z.land (Z.shiftr s_addr 16) 255) ++ "." ++
  to_string (Z.land (Z.shiftr s_addr 24) 255).

(** [strcmp]: the C standard fixes only the sign of the result, which is
    that of the lexicographic comparison of the two strings. *)
Definition strcmp (a b : string) : Z :=
  match String.compare a b with
  | Eq => 0
  | Lt => -1
  | Gt => 1
  end.

(** ** Constants and header layouts *)

Definition SIZE_ETHERNET : Z := 14.
Definition sizeof_ether_header : Z := 14.
Definition sizeof_ip : Z := 20.
Definition sizeof_UDP_hdr : Z := 8.

Definition IPPROTO_IP : Z := 0.
Definition IPPROTO_ICMP : Z := 1.
Definition IPPROTO_TCP : Z := 6.
Definition IPPROTO_UDP : Z := 17.

(** Field offsets of [struct sniff_ip] / [struct ip]. *)
Definition off_ip_vhl : Z := 0.
Definition off_ip_len : Z := 2.
Definition off_ip_p : Z := 9.
Definition off_ip_src : Z := 12.
Definition off_ip_dst : Z := 16.

(** Field offsets of [struct sniff_tcp]. *)
Definition off_th_sport : Z := 0.
Definition off_th_dport : Z := 2.
Definition off_th_offx2 : Z := 12.

(** Field offsets of [struct UDP_hdr]. *)
Definition off_uh_sport : Z := 0.
Definition off_uh_dport : Z := 2.
Definition off_uh_ulen : Z := 4.

(** [IP_HL(ip)] and the [ip_hl] bit field: the low nibble of the first byte. *)
Definition IP_HL (ip_vhl : Z) : Z := Z.land ip_vhl 15.

(** [TH_OFF(th)] *)
Definition TH_OFF (th_offx2 : Z) : Z := Z.shiftr (Z.land th_offx2 240) 4.

Record timeval : Type := { tv_sec : Z; tv_usec : Z }.

Record pcap_pkthdr : Type := { ts : timeval; caplen : Z; len : Z }.

(** ** Observable effects *)

Inductive event : Type :=
| too_short (t : timeval) (truncated_hdr : string)
| problem_pkt (t : timeval) (reason : string)
| printf (text : string)
| printf_u (format : string) (arg : Z)
| cout (text : string)
| update_byte_count (port : string) (nbytes : Z) (is_sent : bool).

(** The accounting calls of a run, in order. *)
Definition is_update (e : event) : bool :=
  match e with
  | update_byte_count _ _ _ => true
  | _ => false
  end.

Definition calls (r : mem (list event)) : list event :=
  match r with
  | Val evs => filter is_update evs
  | ReadPast _ => []
  end.

(** ** dump_UDP_packet *)

(** [capture_len] is an [unsigned int]; the two subtractions wrap. *)
Definition u32 (x : Z) : Z := x mod 2 ^ 32.

Definition dump_UDP_packet (packet : list byte) (t : timeval)
    (capture_len : Z) (match_val : Z) : mem (list event) :=
  if capture_len <? sizeof_ether_header then
    Val [too_short t "Ethernet header"]
  else
    let ip := sizeof_ether_header in
    let capture_len := u32 (capture_len - sizeof_ether_header) in
    if capture_len <? sizeof_ip then
      Val [too_short t "IP header"]
    else
      ip_vhl <- load8 packet (ip + off_ip_vhl) ;;
      let IP_header_length := IP_HL ip_vhl * 4 in
      if capture_len <? IP_header_length then
        Val [too_short t "IP header with options"]
      else
        ip_p <- load8 packet (ip + off_ip_p) ;;
        if negb (ip_p =? IPPROTO_UDP) then
          Val [problem_pkt t "non-UDP packet"]
        else
          let udp := ip + IP_header_length in
          let capture_len := u32 (capture_len - IP_header_length) in
          if capture_len <? sizeof_UDP_hdr then
            Val [too_short t "UDP header"]
          else if match_val =? 1 then
            uh_sport <- load16 packet (udp + off_uh_sport) ;;
            uh_ulen <- load16 packet (udp + off_uh_ulen) ;;
            Val [update_byte_count (to_string (ntohs uh_sport)) (ntohs uh_ulen) true]
          else if match_val =? 2 then
            uh_dport <- load16 packet (udp + off_uh_dport) ;;
            uh_ulen <- load16 packet (udp + off_uh_ulen) ;;
            Val [update_byte_count (to_string (ntohs uh_dport)) (ntohs uh_ulen) false]
          else if match_val =? 3 then
            uh_sport <- load16 packet (udp + off_uh_sport) ;;
            uh_dport <- load16 packet (udp + off_uh_dport) ;;
            uh_ulen <- load16 packet (udp + off_uh_ulen) ;;
            Val [update_byte_count (to_string (ntohs uh_sport)) (ntohs uh_ulen) true;
                 update_byte_count (to_string (ntohs uh_dport)) (ntohs uh_ulen) false]
          else
            Val [].

(** ** got_packet *)

(** Lines 388-399: the locality of the two rendered addresses.
    [match_val] is an [unsigned char]. *)
Definition is_local (plocal_ip addr : string) : bool :=
  (strcmp addr "localhost" =? 0) || (strcmp addr plocal_ip =? 0).

Definition match_val (plocal_ip src_ip dst_ip : string) : Z :=
  if is_local plocal_ip src_ip then
    if is_local plocal_ip dst_ip then (1 + 2) mod 256 else 1
  else if is_local plocal_ip dst_ip then 2
  else 0.

Definition got_packet (plocal_ip : string) (header : pcap_pkthdr)
    (packet : list byte) : mem (list event) :=
  let ip := SIZE_ETHERNET in
  ip_vhl <- load8 packet (ip + off_ip_vhl) ;;
  let size_ip := IP_HL ip_vhl * 4 in
  if size_ip <? 20 then
    Val [printf_u "   * Invalid IP header length: %u bytes" size_ip]
  else
    ip_src <- load32 packet (ip + off_ip_src) ;;
    ip_dst <- load32 packet (ip + off_ip_dst) ;;
    let m := match_val plocal_ip (inet_ntoa ip_src) (inet_ntoa ip_dst) in
    ip_p <- load8 packet (ip + off_ip_p) ;;
    if ip_p =? IPPROTO_TCP then
      let tcp := SIZE_ETHERNET + size_ip in
      th_offx2 <- load8 packet (tcp + off_th_offx2) ;;
      let size_tcp := TH_OFF th_offx2 * 4 in
      if size_tcp <? 20 then
        Val [printf_u "   * Invalid TCP header length: %u bytes" size_tcp]
      else
        th_sport <- load16 packet (tcp + off_th_sport) ;;
        let src_port := ntohs th_sport in
        th_dport <- load16 packet (tcp + off_th_dport) ;;
        let dst_port := ntohs th_dport in
        ip_len <- load16 packet (ip + off_ip_len) ;;
        let size_payload := ntohs ip_len - (size_ip + size_tcp) in
        if m =? 1 then
          Val [update_byte_count (to_string src_port) size_payload true]
        else if m =? 2 then
          Val [update_byte_count (to_string dst_port) size_payload false]
        else if m =? 3 then
          Val [update_byte_count (to_string src_port) size_payload true;
               update_byte_count (to_string dst_port) size_payload false]
        else
          Val [cout "tcp packet is not for this host!"]
    else if ip_p =? IPPROTO_UDP then
      dump_UDP_packet packet (ts header) (caplen header) m
    else if ip_p =? IPPROTO_ICMP then
      Val [printf "   Protocol: ICMP"]
    else if ip_p =? IPPROTO_IP then
      Val [printf "   Protocol: IP"]
    else
      Val [printf "   Protocol: unknown"].

(** ** Views of a frame, for the statements

    The fields as the two functions read them, through the total
    accessors [byte_at], [be16] and [le32]. *)

Definition ip_of : Z := SIZE_ETHERNET.
Definition size_ip_of (packet : list byte) : Z :=
  IP_HL (byte_at packet (ip_of + off_ip_vhl)) * 4.
Definition ip_p_of (packet : list byte) : Z := byte_at packet (ip_of + off_ip_p).
Definition ip_len_of (packet : list byte) : Z := be16 packet (ip_of + off_ip_len).
Definition src_ip_of (packet : list byte) : string :=
  inet_ntoa (le32 packet (ip_of + off_ip_src)).
Definition dst_ip_of (packet : list byte) : string :=
  inet_ntoa (le32 packet (ip_of + off_ip_dst)).

(** Start of the transport header: [packet + SIZE_ETHERNET + size_ip]. *)
Definition transport_of (packet : list byte) : Z := ip_of + size_ip_of packet.
Definition size_tcp_of (packet : list byte) : Z :=
  TH_OFF (byte_at packet (transport_of packet + off_th_offx2)) * 4.
Definition sport_of (packet : list byte) : Z := be16 packet (transport_of packet).
Definition dport_of (packet : list byte) : Z := be16 packet (transport_of packet + 2).
Definition uh_ulen_of (packet : list byte) : Z :=
  be16 packet (transport_of packet + off_uh_ulen).

(** The guards of [got_packet] that a TCP frame passes on its way to the
    accounting statements, with the data-offset byte among the captured
    bytes (the ports and the IP header lie before it). *)
Definition tcp_dissected (packet : list byte) : bool :=
  (20 <=? size_ip_of packet) && (ip_p_of packet =? IPPROTO_TCP) &&
  (transport_of packet + off_th_offx2 <? captured packet) &&
  (20 <=? size_tcp_of packet).

(** The guards of [got_packet] and [dump_UDP_packet] that a UDP frame
    passes on its way to the accounting statements; [caplen] is the number
    of captured bytes, a [bpf_u_int32]. *)
Definition udp_dissected (header : pcap_pkthdr) (packet : list byte) : bool :=
  (caplen header =? captured packet) && (captured packet <? 2 ^ 32) &&
  (20 <=? size_ip_of packet) && (ip_p_of packet =? IPPROTO_UDP) &&
  (transport_of packet + sizeof_UDP_hdr <=? captured packet).

(** The accounting statements of [got_packet] (lines 452-461) on the
    fields of a TCP frame. *)
Definition tcp_accounting (plocal_ip : string) (packet : list byte) : list event :=
  let m := match_val plocal_ip (src_ip_of packet) (dst_ip_of packet) in
  let size_payload := ip_len_of packet - (size_ip_of packet + size_tcp_of packet) in
  if m =? 1 then
    [update_byte_count (to_string (sport_of packet)) size_payload true]
  else if m =? 2 then
    [update_byte_count (to_string (dport_of packet)) size_payload false]
  else if m =? 3 then
    [update_byte_count (to_string (sport_of packet)) size_payload true;
     update_byte_count (to_string (dport_of packet)) size_payload false]
  else
    [cout "tcp packet is not for this host!"].

(** The accounting statements of [dump_UDP_packet] (lines 336-343) on the
    fields of a UDP frame. *)
Definition udp_accounting (plocal_ip : string) (packet : list byte) : list event :=
  let m := match_val plocal_ip (src_ip_of packet) (dst_ip_of packet) in
  if m =? 1 then
    [update_byte_count (to_string (sport_of packet)) (uh_ulen_of packet) true]
  else if m =? 2 then
    [update_byte_count (to_string (dport_of packet)) (uh_ulen_of packet) false]
  else if m =? 3 then
    [update_byte_count (to_string (sport_of packet)) (uh_ulen_of packet) true;
     update_byte_count (to_string (dport_of packet)) (uh_ulen_of packet) false]
  else
    [].

(** The line the protocol switch of [got_packet] (lines 419-427) prints
    for a protocol other than TCP and UDP. *)
Definition protocol_line (ip_p : Z) : string :=
  if ip_p =? IPPROTO_ICMP then "   Protocol: ICMP"
  else if ip_p =? IPPROTO_IP then "   Protocol: IP"
  else "   Protocol: unknown".

(** ** The rules as the specification words them *)

Inductive Classification : Type :=
| NoMatch | SourceIsLocal | DestinationIsLocal | BothLocal.

Inductive Direction : Type := Sent | Received.

(** The local-address set the source compares against. *)
Definition localAddresses (plocal_ip : string) : list string :=
  ["localhost"; plocal_ip].

(** Specification 4.2: classify(sourceIp, destIp, localAddresses). *)
Definition spec_classify (local : list string) (sourceIp destIp : string)
    : Classification :=
  if in_dec string_dec sourceIp local then
    if in_dec string_dec destIp local then BothLocal else SourceIsLocal
  else if in_dec string_dec destIp local then DestinationIsLocal
  else NoMatch.

(** Specification 4.4: the record calls per classification. *)
Definition spec_dispatch (c : Classification) (sourcePort destPort : Z)
    (payloadLength : Z) : list (string * Z * Direction) :=
  match c with
  | SourceIsLocal => [(to_string sourcePort, payloadLength, Sent)]
  | DestinationIsLocal => [(to_string destPort, payloadLength, Received)]
  | BothLocal => [(to_string sourcePort, payloadLength, Sent);
                  (to_string destPort, payloadLength, Received)]
  | NoMatch => []
  end.

(** How the dispatch chains of the source read [match_val]:
    [== 1], [== 2], [== 3], else. *)
Definition Classification_of (match_val : Z) : Classification :=
  if match_val =? 1 then SourceIsLocal
  else if match_val =? 2 then DestinationIsLocal
  else if match_val =? 3 then BothLocal
  else NoMatch.

(** The record calls among the events of a run. *)
Definition record_of (e : event) : list (string * Z * Direction) :=
  match e with
  | update_byte_count port nbytes is_sent =>
      [(port, nbytes, if is_sent then Sent else Received)]
  | _ => []
  end.

Definition records (evs : list event) : list (string * Z * Direction) :=
  flat_map record_of evs.

(** ** Test frames *)

Definition b8 (n : N) : byte :=
  match Byte.of_N n with
  | Some b => b
  | None => x00
  end.

Definition frame_of (l : list N) : list byte := map b8 l.

Definition hdr_of (packet : list byte) : pcap_pkthdr :=
  {| ts := {| tv_sec := 0; tv_usec := 0 |};
     caplen := captured packet;
     len := captured packet |}.

Definition ether_bytes : list N :=
  [0; 0; 0; 0; 0; 0;  0; 0; 0; 0; 0; 0;  8; 0]%N.

(** Ethernet + IP (IHL 5, total length 28, UDP, 127.0.0.1 -> 127.0.0.1)
    + UDP (5000 -> 6000, length 8): 42 bytes. *)
Definition udp_loopback_frame : list byte :=
  frame_of (ether_bytes ++
    [69; 0; 0; 28;  0; 0; 0; 0;  64; 17; 0; 0;
     127; 0; 0; 1;  127; 0; 0; 1;
     19; 136; 23; 112; 0; 8; 0; 0]%N)%list.



Definition ip_bytes (vhl len_hi len_lo proto : N) (src dst : list N) : list N :=
  ([vhl; 0; len_hi; len_lo;  0; 0; 0; 0;  64; proto; 0; 0] ++ src ++ dst)%list%N.

(** IHL 3 (12 bytes), otherwise as [udp_loopback_frame]. *)
Definition short_ihl_frame : list byte :=
  frame_of (ether_bytes ++ ip_bytes 67 0 28 17 [127; 0; 0; 1] [127; 0; 0; 1] ++
    [19; 136; 23; 112; 0; 8; 0; 0])%list%N.

(** ICMP echo request 10.0.0.1 -> 8.8.8.8. *)
Definition icmp_frame : list byte :=
  frame_of (ether_bytes ++ ip_bytes 69 0 28 1 [10; 0; 0; 1] [8; 8; 8; 8] ++
    [8; 0; 0; 0; 0; 1; 0; 1])%list%N.

(** TCP 10.0.0.1:5000 -> 93.184.216.34:80, data offset 5, 20 payload bytes
    announced (IP total length 60), captured whole. *)
Definition tcp_frame : list byte :=
  frame_of (ether_bytes ++ ip_bytes 69 0 60 6 [10; 0; 0; 1] [93; 184; 216; 34] ++
    [19; 136; 0; 80;  0; 0; 0; 1;  0; 0; 0; 0;  80; 16; 2; 0;  0; 0; 0; 0] ++
    [1; 2; 3; 4; 5; 6; 7; 8; 9; 10; 11; 12; 13; 14; 15; 16; 17; 18; 19; 20])%list%N.

(** As [tcp_frame] with the IP total length field overwritten by 0 and no
    payload captured. *)
Definition tcp_bad_total_length_frame : list byte :=
  frame_of (ether_bytes ++ ip_bytes 69 0 0 6 [10; 0; 0; 1] [93; 184; 216; 34] ++
    [19; 136; 0; 80;  0; 0; 0; 1;  0; 0; 0; 0;  80; 16; 2; 0;  0; 0; 0; 0])%list%N.

(** As [tcp_frame], cut after 16 bytes of the TCP header (50 bytes). *)
Definition tcp_cut_header_frame : list byte := firstn 50 tcp_frame.

(** Data offset 15 (a 60-byte TCP header announced, IP total length 100),
    cut after the first 20 bytes of the TCP header (54 bytes). *)
Definition tcp_cut_options_frame : list byte :=
  frame_of (ether_bytes ++ ip_bytes 69 0 100 6 [10; 0; 0; 1] [93; 184; 216; 34] ++
    [19; 136; 0; 80;  0; 0; 0; 1;  0; 0; 0; 0;  240; 16; 2; 0;  0; 0; 0; 0])%list%N.

(** As [tcp_frame] without payload, the data offset set to 4 (16 bytes). *)
Definition tcp_short_offset_frame : list byte :=
  frame_of (ether_bytes ++ ip_bytes 69 0 40 6 [10; 0; 0; 1] [93; 184; 216; 34] ++
    [19; 136; 0; 80;  0; 0; 0; 1;  0; 0; 0; 0;  64; 16; 2; 0;  0; 0; 0; 0])%list%N.

(** Ethernet and IP header of [tcp_frame] only (34 bytes). *)
Definition tcp_no_transport_frame : list byte := firstn 34 tcp_frame.

(** A 10-byte runt. *)
Definition runt_frame : list byte := frame_of [0; 1; 2; 3; 4; 5; 6; 7; 8; 9]%N.

(** ** Frames on which [got_packet] stays inside the captured bytes

    The byte of [ip_vhl] is captured and, unless the header length it
    encodes is rejected, so are the 20 bytes of the minimal IP header and,
    for TCP, the data-offset byte of the TCP header. *)
Definition got_packet_in_bounds (packet : list byte) : bool :=
  (ip_of + off_ip_vhl <? captured packet) &&
  ((size_ip_of packet <? 20) ||
   ((ip_of + sizeof_ip <=? captured packet) &&
    (negb (ip_p_of packet =? IPPROTO_TCP) ||
     (transport_of packet + off_th_offx2 <? captured packet)))).

(** A UDP frame cut in the middle of its UDP header (38 bytes). *)
Definition udp_cut_frame : list byte := firstn 38 udp_loopback_frame.

(** ** print_hex_ascii_line and print_payload

    The text that [print_hex_ascii_line] sends to stdout is a [string];
    [payload] is the captured buffer with the offset [ch] of the pointer in
    it.  The effect of [print_payload] is the sequence of its calls of
    [print_hex_ascii_line], recorded with their arguments. *)

(** The conversion %02x of a byte: two lower-case hexadecimal digits. *)
Definition hex_digit (n : Z) : ascii :=
  if n <? 10 then ascii_of_nat (Z.to_nat (48 + n))
  else ascii_of_nat (Z.to_nat (87 + n)).

Definition printf_02x (v : Z) : string :=
  String (hex_digit (v / 16)) (String (hex_digit (v mod 16)) EmptyString).

(** Zero padding on the left up to [width] characters. *)
Definition pad0 (width : nat) (s : string) : string :=
  string_of_list_ascii (repeat "0"%char (width - String.length s)) ++ s.

(** The conversion %05d of an [int]: the sign comes before the padding. *)
Definition printf_05d (n : Z) : string :=
  if n <? 0 then String "-" (pad0 4 (to_string (- n)))
  else pad0 5 (to_string n).

(** [isprint] in the C locale. *)
Definition isprint (c : Z) : bool := (32 <=? c) && (c <=? 126).

Definition newline : string := String (ascii_of_nat 10) EmptyString.

(** The first loop of [print_hex_ascii_line] with [count] iterations
    left: each byte as %02x and a space, one more space after the byte with
    [i == 7]. *)
Fixpoint hex_loop (payload : list byte) (ch i : Z) (count : nat) : mem string :=
  match count with
  | O => Val EmptyString
  | S k =>
      b <- load8 payload ch ;;
      rest <- hex_loop payload (ch + 1) (i + 1) k ;;
      Val (printf_02x b ++ " " ++ (if i =? 7 then " " else EmptyString) ++ rest)
  end.

(** The gap loop: three spaces per missing byte. *)
Fixpoint gap_loop (count : nat) : string :=
  match count with
  | O => EmptyString
  | S k => "   " ++ gap_loop k
  end.

(** The last loop: each byte as itself when [isprint] holds of it, as a
    dot otherwise. *)
Fixpoint ascii_loop (payload : list byte) (ch : Z) (count : nat) : mem string :=
  match count with
  | O => Val EmptyString
  | S k =>
      b <- load8 payload ch ;;
      rest <- ascii_loop payload (ch + 1) k ;;
      Val (String (if isprint b then ascii_of_nat (Z.to_nat b) else "."%char) rest)
  end.

Definition print_hex_ascii_line (payload : list byte) (ch len offset : Z)
    : mem string :=
  hex <- hex_loop payload ch 0 (Z.to_nat len) ;;
  let short := if len <? 8 then " " else EmptyString in
  let gap := if len <? 16 then gap_loop (Z.to_nat (16 - len)) else EmptyString in
  asc <- ascii_loop payload ch (Z.to_nat len) ;;
  Val (printf_05d offset ++ "   " ++ hex ++ short ++ gap ++ "   " ++ asc ++ newline).

(** One call of [print_hex_ascii_line] by [print_payload]: the pointer, the
    length and the offset it is given. *)
Record hex_line : Type := { line_ch : Z; line_len : Z; line_offset : Z }.

Definition line_width : Z := 16.

(** The [for ( ;; )] loop of [print_payload]; [None] when [fuel] runs out
    before the loop breaks.  [%] on [int]s truncates: [Z.rem]. *)
Fixpoint print_payload_loop (fuel : nat) (ch len_rem offset : Z)
    : option (list hex_line) :=
  match fuel with
  | O => None
  | S fuel' =>
      let line_len := Z.rem line_width len_rem in
      let first := {| line_ch := ch; line_len := line_len; line_offset := offset |} in
      let len_rem := len_rem - line_len in
      let ch := ch + line_len in
      let offset := offset + line_width in
      if len_rem <=? line_width then
        Some [first; {| line_ch := ch; line_len := len_rem; line_offset := offset |}]
      else
        match print_payload_loop fuel' ch len_rem offset with
        | Some rest => Some (first :: rest)
        | None => None
        end
  end.

Definition print_payload (fuel : nat) (len : Z) : option (list hex_line) :=
  if len <=? 0 then Some []
  else if len <=? line_width then
    Some [{| line_ch := 0; line_len := len; line_offset := 0 |}]
  else print_payload_loop fuel 0 len 0.

(** The bytes a call of [print_hex_ascii_line] is to show. *)
Definition line_bytes (payload : list byte) (l : hex_line) : list byte :=
  firstn (Z.to_nat (line_len l)) (skipn (Z.to_nat (line_ch l)) payload).

(** The i-th line of 16 bytes of a payload of [len] bytes printed from
    [ch] on, and the number of such lines; used in statements. *)
Definition chunk (ch len offset : Z) (i : nat) : hex_line :=
  {| line_ch := ch + 16 * Z.of_nat i;
     line_len := Z.min 16 (len - 16 * Z.of_nat i);
     line_offset := offset + 16 * Z.of_nat i |}.

Definition chunk_count (len : Z) : nat := Z.to_nat ((len + 15) / 16).


(** The ASCII column of a line: each byte as itself when printable, as a
    dot otherwise; used in statements. *)
Definition ascii_column (bytes : list byte) : string :=
  string_of_list_ascii
    (map (fun b => if isprint (u_char b) then ascii_of_nat (Z.to_nat (u_char b))
                   else "."%char) bytes).

(** Strings of characters for which [isprint] holds. *)
Definition printable (c : ascii) : bool := isprint (Z.of_nat (nat_of_ascii c)).

Fixpoint all_printable (s : string) : bool :=
  match s with
  | EmptyString => true
  | String c rest => printable c && all_printable rest
  end.


(** The 16 bytes of the example in the comment of [print_hex_ascii_line]:
    GET / HTTP/1.1 and a line end. *)
Definition http_payload : list byte :=
  frame_of [71; 69; 84; 32; 47; 32; 72; 84; 84; 80; 47; 49; 46; 49; 13; 10]%N.

(** ** main

    The calls of libpcap and of the functions of sniffer.h are recorded as
    actions; what they return, and the error texts they leave, are read from
    a [world].  A line of output is
    recorded without its closing newline.  [pcap_loop] hands the delivered
    frames to [got_packet] one by one, at most [cnt] of them. *)

Definition APP_NAME : string := "sniffex".
Definition APP_DESC : string := "Sniffer example using libpcap".
Definition APP_COPYRIGHT : string := "Copyright (c) 2005 The Tcpdump Group".
Definition APP_DISCLAIMER : string :=
  "THERE IS ABSOLUTELY NO WARRANTY FOR THIS PROGRAM.".
Definition SNAP_LEN : Z := 1518.
Definition DLT_EN10MB : Z := 1.
Definition EXIT_FAILURE : Z := 1.

Record world : Type := {
  get_process_mapping_ret : Z;
  pcap_lookupdev_ret : option string;
  pcap_lookupnet_ret : Z;
  lookupnet_net : Z;
  lookupnet_mask : Z;
  pcap_open_live_ret : bool;
  pcap_datalink_ret : Z;
  pcap_compile_ret : Z;
  pcap_setfilter_ret : Z;
  lookupdev_errbuf : string;
  lookupnet_errbuf : string;
  open_live_errbuf : string;
  compile_geterr : string;
  setfilter_geterr : string;
  delivered : list (pcap_pkthdr * list byte)
}.

Inductive action : Type :=
| call_get_process_mapping
| out (text : string)
| err (text : string)
| call_pcap_lookupdev
| call_pcap_lookupnet (dev : string)
| call_pcap_open_live (dev : string) (snaplen promisc to_ms : Z)
| call_pcap_datalink
| call_pcap_compile (filter_exp : string) (optimize netmask : Z)
| call_pcap_setfilter
| call_pcap_loop (cnt : Z)
| callback (e : event)
| call_pcap_freecode
| call_pcap_close
| call_show_process_table.

Inductive outcome : Type :=
| Returned (code : Z)
| Exited (status : Z).

Definition print_app_banner : list action :=
  [out (APP_NAME ++ " - " ++ APP_DESC); out APP_COPYRIGHT; out APP_DISCLAIMER;
   out EmptyString].

Definition print_app_usage : list action :=
  [out ("Usage: " ++ APP_NAME ++ " [interface]"); out EmptyString;
   out "Options:"; out "    interface    Listen on <interface> for packets.";
   out EmptyString].

(** The callback on each of the frames in turn. *)
Fixpoint run_callback (plocal_ip : string)
    (frames : list (pcap_pkthdr * list byte)) : mem (list event) :=
  match frames with
  | [] => Val []
  | (header, packet) :: rest =>
      evs <- got_packet plocal_ip header packet ;;
      more <- run_callback plocal_ip rest ;;
      Val (evs ++ more)%list
  end.

Definition pcap_loop (plocal_ip : string) (cnt : Z)
    (frames : list (pcap_pkthdr * list byte)) : mem (list event) :=
  run_callback plocal_ip (firstn (Z.to_nat cnt) frames).

Definition main (plocal_ip : string) (argv : list string) (w : world)
    : mem (outcome * list action) :=
  let argc := Z.of_nat (List.length argv) in
  if get_process_mapping_ret w <? 0 then
    Val (Returned 0, [call_get_process_mapping])
  else
    let filter_exp := "ip" in
    let num_packets := 100 in
    let t0 := (call_get_process_mapping :: print_app_banner)%list in
    (* the capture device *)
    let dev_step :=
      if argc =? 2 then inr (nth 1 argv EmptyString, t0)
      else if 2 <? argc then
        inl (t0 ++ [err "error: unrecognized command-line options"; err EmptyString]
                ++ print_app_usage)%list
      else
        match pcap_lookupdev_ret w with
        | Some dev => inr (dev, (t0 ++ [call_pcap_lookupdev])%list)
        | None =>
            inl (t0 ++ [call_pcap_lookupdev;
                        err ("Couldn't find default device: " ++ lookupdev_errbuf w)])%list
        end in
    match dev_step with
    | inl t => Val (Exited EXIT_FAILURE, t)
    | inr (dev, t1) =>
        (* network number and mask *)
        let failed := pcap_lookupnet_ret w =? -1 in
        let net := if failed then 0 else lookupnet_net w in
        let t2 :=
          (t1 ++ [call_pcap_lookupnet dev] ++
           (if failed
            then [err ("Couldn't get netmask for device " ++ dev ++ ": "
                       ++ lookupnet_errbuf w)]
            else []) ++
           [out ("Device: " ++ dev);
            out ("Number of packets: " ++ to_string num_packets);
            out ("Filter expression: " ++ filter_exp);
            call_pcap_open_live dev SNAP_LEN 1 1000])%list in
        if negb (pcap_open_live_ret w) then
          Val (Exited EXIT_FAILURE,
               (t2 ++ [err ("Couldn't open device " ++ dev ++ ": "
                            ++ open_live_errbuf w)])%list)
        else if negb (pcap_datalink_ret w =? DLT_EN10MB) then
          Val (Exited EXIT_FAILURE,
               (t2 ++ [call_pcap_datalink; err (dev ++ " is not an Ethernet")])%list)
        else if pcap_compile_ret w =? -1 then
          Val (Exited EXIT_FAILURE,
               (t2 ++ [call_pcap_datalink; call_pcap_compile filter_exp 0 net;
                       err ("Couldn't parse filter " ++ filter_exp ++ ": "
                            ++ compile_geterr w)])%list)
        else if pcap_setfilter_ret w =? -1 then
          Val (Exited EXIT_FAILURE,
               (t2 ++ [call_pcap_datalink; call_pcap_compile filter_exp 0 net;
                       call_pcap_setfilter;
                       err ("Couldn't install filter " ++ filter_exp ++ ": "
                            ++ setfilter_geterr w)])%list)
        else
          evs <- pcap_loop plocal_ip num_packets (delivered w) ;;
          Val (Returned 0,
               (t2 ++ [call_pcap_datalink; call_pcap_compile filter_exp 0 net;
                       call_pcap_setfilter; call_pcap_loop num_packets]
                   ++ map callback evs
                   ++ [call_pcap_freecode; call_pcap_close;
                       out EmptyString; out "Capture complete.";
                       call_show_process_table])%list)
    end.

(** A world in which every call succeeds, with the given frames. *)
Definition good_world (frames : list (pcap_pkthdr * list byte)) : world :=
  {| get_process_mapping_ret := 0;
     pcap_lookupdev_ret := Some "eth0";
     pcap_lookupnet_ret := 0;
     lookupnet_net := 10;
     lookupnet_mask := 255;
     pcap_open_live_ret := true;
     pcap_datalink_ret := DLT_EN10MB;
     pcap_compile_ret := 0;
     pcap_setfilter_ret := 0;
     lookupdev_errbuf := EmptyString;
     lookupnet_errbuf := EmptyString;
     open_live_errbuf := EmptyString;
     compile_geterr := EmptyString;
     setfilter_geterr := EmptyString;
     delivered := frames |}.

(** The same world with other frames delivered. *)
Definition with_delivered (w : world) (frames : list (pcap_pkthdr * list byte))
    : world :=
  {| get_process_mapping_ret := get_process_mapping_ret w;
     pcap_lookupdev_ret := pcap_lookupdev_ret w;
     pcap_lookupnet_ret := pcap_lookupnet_ret w;
     lookupnet_net := lookupnet_net w;
     lookupnet_mask := lookupnet_mask w;
     pcap_open_live_ret := pcap_open_live_ret w;
     pcap_datalink_ret := pcap_datalink_ret w;
     pcap_compile_ret := pcap_compile_ret w;
     pcap_setfilter_ret := pcap_setfilter_ret w;
     lookupdev_errbuf := lookupdev_errbuf w;
     lookupnet_errbuf := lookupnet_errbuf w;
     open_live_errbuf := open_live_errbuf w;
     compile_geterr := compile_geterr w;
     setfilter_geterr := setfilter_geterr w;
     delivered := frames |}.

(** The conditions under which [main] gets as far as [pcap_loop]. *)
Definition setup_ok (argv : list string) (w : world) : bool :=
  (0 <=? get_process_mapping_ret w) &&
  ((List.length argv =? 2)%nat ||
   ((List.length argv <? 2)%nat &&
    match pcap_lookupdev_ret w with Some _ => true | None => false end)) &&
  pcap_open_live_ret w &&
  (pcap_datalink_ret w =? DLT_EN10MB) &&
  negb (pcap_compile_ret w =? -1) &&
  negb (pcap_setfilter_ret w =? -1).

(** A delivered frame whose header tells the truth about the captured
    bytes and on which [got_packet] stays inside them. *)
Definition frame_in_bounds (hp : pcap_pkthdr * list byte) : bool :=
  (0 <=? caplen (fst hp)) && (caplen (fst hp) <=? captured (snd hp)) &&
  (caplen (fst hp) <? 2 ^ 32) && got_packet_in_bounds (snd hp).

(** ** timestamp_string

    The text [sprintf] writes into the 256-byte static buffer for the format
    %d.%06d; the conversion of [tv_sec] and [tv_usec] to [int] keeps the low
    32 bits. *)

Definition to_int (x : Z) : Z := (x + 2 ^ 31) mod 2 ^ 32 - 2 ^ 31.

(** The conversion %06d of an [int]. *)
Definition printf_06d (n : Z) : string :=
  if n <? 0 then String "-" (pad0 5 (to_string (- n)))
  else pad0 6 (to_string n).

Definition timestamp_string (t : timeval) : string :=
  to_string (to_int (tv_sec t)) ++ "." ++ printf_06d (to_int (tv_usec t)).

(** ** Facts about loads *)

Lemma u_char_range (b : byte) : 0 <= u_char b < 256.
Proof.
  unfold u_char. pose proof (Byte.to_N_bounded b). lia.
Qed.

Lemma byte_at_range packet off : 0 <= byte_at packet off < 256.
Proof.
  unfold byte_at. destruct (nth_error packet (Z.to_nat off)).
  - apply u_char_range.
  - lia.
Qed.

Lemma load8_in packet off :
  0 <= off < captured packet -> load8 packet off = Val (byte_at packet off).
Proof.
  intros [Hlo Hhi]. unfold load8, byte_at, captured in *.
  destruct (Z.ltb_spec off 0); [lia|].
  destruct (nth_error packet (Z.to_nat off)) eqn:E; [reflexivity|].
  apply nth_error_None in E. lia.
Qed.

Lemma load8_out packet off :
  captured packet <= off -> load8 packet off = ReadPast off.
Proof.
  intros H. unfold load8, captured in *.
  destruct (Z.ltb_spec off 0); [reflexivity|].
  destruct (nth_error packet (Z.to_nat off)) eqn:E; [|reflexivity].
  assert (nth_error packet (Z.to_nat off) <> None) as N by congruence.
  apply nth_error_Some in N. lia.
Qed.

Lemma land_low_shifted a b n :
  0 <= n -> 0 <= a < 2 ^ n -> Z.land a (b * 2 ^ n) = 0.
Proof.
  intros Hn [Ha0 Ha]. apply Z.bits_inj'. intros i Hi.
  rewrite Z.land_spec, Z.bits_0.
  destruct (Z.lt_ge_cases i n) as [L|G].
  - rewrite Z.mul_pow2_bits_low by lia. apply andb_false_r.
  - destruct (Z.eq_dec a 0) as [->|Hne].
    + rewrite Z.bits_0. reflexivity.
    + rewrite (Z.bits_above_log2 a i); [reflexivity|lia|].
      apply Z.lt_le_trans with n; [|lia].
      apply Z.log2_lt_pow2; lia.
Qed.

Lemma lor_shiftl_add a b n :
  0 <= n -> 0 <= a < 2 ^ n -> Z.lor a (Z.shiftl b n) = a + b * 2 ^ n.
Proof.
  intros Hn Ha. rewrite Z.shiftl_mul_pow2 by lia.
  rewrite <- (Z.add_lor_land a (b * 2 ^ n)).
  rewrite land_low_shifted by lia. lia.
Qed.

(** On a little-endian host, [ntohs] of an overlaid [u_short] is the
    big-endian value of its two bytes. *)
Lemma ntohs_overlay b0 b1 :
  0 <= b0 < 256 -> 0 <= b1 < 256 ->
  ntohs (Z.lor b0 (Z.shiftl b1 8)) = b0 * 256 + b1.
Proof.
  intros H0 H1. unfold ntohs.
  rewrite (lor_shiftl_add b0 b1 8) by lia.
  change 255 with (Z.ones 8).
  rewrite !Z.land_ones by lia.
  rewrite Z.shiftr_div_pow2 by lia.
  change (2 ^ 8) with 256.
  replace ((b0 + b1 * 256) mod 256) with b0
    by (rewrite Z.mod_add by lia; symmetry; apply Z.mod_small; lia).
  replace ((b0 + b1 * 256) / 256) with b1
    by (rewrite Z.div_add by lia; rewrite Z.div_small by lia; lia).
  rewrite (Z.mod_small b1) by lia.
  rewrite Z.lor_comm, (lor_shiftl_add b1 b0 8) by lia.
  change (2 ^ 8) with 256. lia.
Qed.

Lemma load16_in packet off :
  0 <= off -> off + 1 < captured packet ->
  exists v, load16 packet off = Val v /\ ntohs v = be16 packet off.
Proof.
  intros Hlo Hhi. unfold load16.
  rewrite !load8_in by lia. cbn [bind].
  eexists. split; [reflexivity|].
  apply ntohs_overlay; apply byte_at_range.
Qed.

Lemma load32_in packet off :
  0 <= off -> off + 3 < captured packet ->
  load32 packet off = Val (le32 packet off).
Proof.
  intros Hlo Hhi. unfold load32, load16, le32.
  rewrite !load8_in by lia. reflexivity.
Qed.

Lemma strcmp_eq a b : (strcmp a b =? 0) = String.eqb a b.
Proof.
  unfold strcmp. destruct (String.eqb_spec a b) as [->|N].
  - pose proof (String.compare_antisym b b) as A.
    destruct (String.compare b b); try reflexivity; discriminate A.
  - destruct (String.compare a b) eqn:E; try reflexivity.
    apply String.compare_eq_iff in E. contradiction.
Qed.

Lemma IP_HL_range v : 0 <= IP_HL v <= 15.
Proof.
  unfold IP_HL. change (Z.land v 15) with (Z.land v (Z.ones 4)).
  rewrite Z.land_ones by lia. change (2 ^ 4) with 16.
  pose proof (Z.mod_pos_bound v 16). lia.
Qed.

(** ** The two paths to the accounting statements *)

Ltac unfold_layout :=
  unfold tcp_dissected, udp_dissected, size_tcp_of, sport_of, dport_of,
    uh_ulen_of, transport_of, ip_len_of, src_ip_of, dst_ip_of, ip_p_of,
    size_ip_of, ip_of, SIZE_ETHERNET, sizeof_ether_header, sizeof_ip,
    sizeof_UDP_hdr, off_ip_vhl, off_ip_len, off_ip_p, off_ip_src, off_ip_dst,
    off_th_sport, off_th_dport, off_th_offx2, off_uh_sport, off_uh_dport,
    off_uh_ulen in *.

Ltac split_guards :=
  repeat match goal with
  | H : _ && _ = true |- _ => apply andb_true_iff in H; destruct H
  | H : (_ <=? _) = true |- _ => apply Z.leb_le in H
  | H : (_ <? _) = true |- _ => apply Z.ltb_lt in H
  | H : (_ =? _) = true |- _ => apply Z.eqb_eq in H
  end.

(** Resolve the load at the head of the goal, all of whose bytes are
    captured. *)
Ltac step_load :=
  lazymatch goal with
  | |- bind (load32 ?p ?o) _ = _ => rewrite (load32_in p o) by lia
  | |- bind (load16 ?p ?o) _ = _ =>
      let v := fresh "v" in
      let E := fresh "E" in
      let Hv := fresh "Hv" in
      destruct (load16_in p o) as [v [E Hv]]; [lia | lia |];
      rewrite E; cbn [bind]; rewrite ?Hv; clear E
  | |- bind (load8 ?p ?o) _ = _ => rewrite (load8_in p o) by lia
  end; cbn [bind].

(** Decide the guard at the head of the goal from the hypotheses. *)
Ltac step_guard :=
  lazymatch goal with
  | |- (if ?a <? ?b then _ else _) = _ =>
      destruct (Z.ltb_spec a b); [try lia | try lia]
  | |- (if ?a =? ?b then _ else _) = _ =>
      destruct (Z.eqb_spec a b); [try lia | try lia]
  | |- (if negb (?a =? ?b) then _ else _) = _ =>
      destruct (Z.eqb_spec a b); cbn [negb]; [try lia | try lia]
  end.

Ltac split_chain :=
  repeat match goal with
  | |- context [if ?c then _ else _] => destruct c
  end.

Lemma u32_small x : 0 <= x < 2 ^ 32 -> u32 x = x.
Proof. intros H. unfold u32. apply Z.mod_small. exact H. Qed.

Lemma got_packet_tcp plocal_ip header packet :
  tcp_dissected packet = true ->
  got_packet plocal_ip header packet = Val (tcp_accounting plocal_ip packet).
Proof.
  intros G. unfold tcp_accounting, got_packet.
  pose proof (IP_HL_range (byte_at packet 14)) as R.
  unfold_layout. split_guards. unfold IPPROTO_TCP in *.
  rewrite ?Z.add_0_r in *. cbv zeta.
  step_load. step_guard.
  step_load. step_load. step_load. step_guard.
  step_load. step_guard.
  step_load. step_load. step_load.
  rewrite Z.add_0_r. split_chain; reflexivity.
Qed.

Lemma got_packet_udp plocal_ip header packet :
  udp_dissected header packet = true ->
  got_packet plocal_ip header packet = Val (udp_accounting plocal_ip packet).
Proof.
  intros G. unfold udp_accounting, got_packet.
  pose proof (IP_HL_range (byte_at packet 14)) as R.
  unfold_layout. split_guards. unfold IPPROTO_TCP, IPPROTO_UDP in *.
  rewrite ?Z.add_0_r in *. cbv zeta.
  step_load. step_guard.
  step_load. step_load. step_load. step_guard. step_guard.
  unfold dump_UDP_packet. unfold_layout. unfold IPPROTO_UDP. cbv zeta.
  rewrite ?Z.add_0_r.
  match goal with H : caplen header = _ |- _ => rewrite H end.
  step_guard. rewrite (u32_small (captured packet - 14)) by lia.
  step_guard. step_load. step_guard. step_load. step_guard.
  rewrite u32_small by lia. step_guard.
  set (m := match_val _ _ _).
  destruct (m =? 1); [repeat step_load; rewrite ?Z.add_0_r; reflexivity|].
  destruct (m =? 2); [repeat step_load; rewrite ?Z.add_0_r; reflexivity|].
  destruct (m =? 3); [repeat step_load; rewrite ?Z.add_0_r; reflexivity|].
  reflexivity.
Qed.

(** ** Locality *)

Lemma is_local_eqb plocal_ip addr :
  is_local plocal_ip addr = String.eqb addr "localhost" || String.eqb addr plocal_ip.
Proof. unfold is_local. rewrite !strcmp_eq. reflexivity. Qed.

Lemma is_local_In plocal_ip addr :
  is_local plocal_ip addr = true <-> In addr (localAddresses plocal_ip).
Proof.
  rewrite is_local_eqb, orb_true_iff, !String.eqb_eq.
  unfold localAddresses. cbn [In]. intuition congruence.
Qed.

Lemma match_val_cases plocal_ip src_ip dst_ip :
  match_val plocal_ip src_ip dst_ip =
    if is_local plocal_ip src_ip
    then if is_local plocal_ip dst_ip then 3 else 1
    else if is_local plocal_ip dst_ip then 2 else 0.
Proof. reflexivity. Qed.

Lemma in_dec_is_local plocal_ip addr (A : Type) (x y : A) :
  (if in_dec string_dec addr (localAddresses plocal_ip) then x else y) =
  (if is_local plocal_ip addr then x else y).
Proof.
  destruct (in_dec string_dec addr (localAddresses plocal_ip)) as [I|N];
    destruct (is_local plocal_ip addr) eqn:E; try reflexivity.
  - apply is_local_In in I. congruence.
  - apply is_local_In in E. contradiction.
Qed.

Lemma Classification_of_match_val plocal_ip src_ip dst_ip :
  Classification_of (match_val plocal_ip src_ip dst_ip) =
  spec_classify (localAddresses plocal_ip) src_ip dst_ip.
Proof.
  unfold spec_classify. rewrite !in_dec_is_local, match_val_cases.
  destruct (is_local plocal_ip src_ip), (is_local plocal_ip dst_ip); reflexivity.
Qed.

Lemma records_tcp_accounting plocal_ip packet :
  records (tcp_accounting plocal_ip packet) =
  spec_dispatch
    (Classification_of (match_val plocal_ip (src_ip_of packet) (dst_ip_of packet)))
    (sport_of packet) (dport_of packet)
    (ip_len_of packet - (size_ip_of packet + size_tcp_of packet)).
Proof.
  unfold tcp_accounting, Classification_of. cbv zeta. split_chain; reflexivity.
Qed.

Lemma records_udp_accounting plocal_ip packet :
  records (udp_accounting plocal_ip packet) =
  spec_dispatch
    (Classification_of (match_val plocal_ip (src_ip_of packet) (dst_ip_of packet)))
    (sport_of packet) (dport_of packet) (uh_ulen_of packet).
Proof.
  unfold udp_accounting, Classification_of. cbv zeta. split_chain; reflexivity.
Qed.

(** ** Capture-length checks *)

(** [dump_UDP_packet] on its own keeps every load inside the bytes its
    [capture_len] argument vouches for. *)
Lemma dump_UDP_packet_in_bounds packet t capture_len m :
  0 <= capture_len <= captured packet -> capture_len < 2 ^ 32 ->
  exists evs, dump_UDP_packet packet t capture_len m = Val evs.
Proof.
  intros B W. unfold dump_UDP_packet.
  pose proof (IP_HL_range (byte_at packet 14)) as R.
  unfold_layout. cbv zeta. rewrite ?Z.add_0_r.
  destruct (Z.ltb_spec capture_len 14); [eexists; reflexivity|].
  rewrite (u32_small (capture_len - 14)) by lia.
  destruct (Z.ltb_spec (capture_len - 14) 20); [eexists; reflexivity|].
  rewrite (load8_in packet 14) by lia. cbn [bind].
  destruct (Z.ltb_spec (capture_len - 14) (IP_HL (byte_at packet 14) * 4));
    [eexists; reflexivity|].
  rewrite (load8_in packet (14 + 9)) by lia. cbn [bind].
  destruct (negb (byte_at packet (14 + 9) =? IPPROTO_UDP)); [eexists; reflexivity|].
  rewrite u32_small by lia.
  destruct (Z.ltb_spec (capture_len - 14 - IP_HL (byte_at packet 14) * 4) 8);
    [eexists; reflexivity|].
  unfold load16.
  destruct (m =? 1); [rewrite !load8_in by lia; eexists; reflexivity|].
  destruct (m =? 2); [rewrite !load8_in by lia; eexists; reflexivity|].
  destruct (m =? 3); [rewrite !load8_in by lia; eexists; reflexivity|].
  eexists; reflexivity.
Qed.


(** [got_packet] loads [ip_vhl] before anything looks at [caplen]. *)
Lemma got_packet_no_ethernet_check plocal_ip header packet :
  captured packet <= SIZE_ETHERNET ->
  got_packet plocal_ip header packet = ReadPast SIZE_ETHERNET.
Proof.
  intros H. unfold got_packet. unfold_layout. cbv zeta.
  rewrite Z.add_0_r, load8_out by lia. reflexivity.
Qed.

(** The protocol switch on a frame that is neither TCP nor UDP. *)
Lemma got_packet_other plocal_ip header packet :
  ip_of + sizeof_ip <= captured packet ->
  20 <= size_ip_of packet ->
  ip_p_of packet <> IPPROTO_TCP ->
  ip_p_of packet <> IPPROTO_UDP ->
  got_packet plocal_ip header packet = Val [printf (protocol_line (ip_p_of packet))].
Proof.
  intros Hc Hip Ht Hu. unfold got_packet, protocol_line.
  unfold_layout. unfold IPPROTO_TCP, IPPROTO_UDP in *.
  rewrite ?Z.add_0_r in *. cbv zeta.
  step_load. step_guard.
  step_load. step_load. step_load. step_guard. step_guard.
  split_chain; reflexivity.
Qed.

(** ** Properties of the pipeline *)

(** C1 (the code departs from the claim).  Header fields are not all read
    behind a capture-length check: for a frame that ends with its IP header
    (34 captured bytes, protocol TCP), [got_packet] loads the TCP
    data-offset byte at offset 46, which was not captured. *)
Theorem got_packet_reads_past_captured_bytes plocal_ip header :
  captured tcp_no_transport_frame = 34 /\
  got_packet plocal_ip header tcp_no_transport_frame = ReadPast 46.
Proof. split; reflexivity. Qed.

(** C2, as stated, fails: a TCP frame whose IP total length field is 0
    has the computed payload length -40, and [got_packet] hands -40 to
    [update_byte_count]. *)
Lemma negative_tcp_payload_is_accounted :
  ip_len_of tcp_bad_total_length_frame -
    (size_ip_of tcp_bad_total_length_frame + size_tcp_of tcp_bad_total_length_frame)
    = -40 /\
  got_packet "10.0.0.1" (hdr_of tcp_bad_total_length_frame)
      tcp_bad_total_length_frame
    = Val [update_byte_count "5000" (-40) true].
Proof. split; reflexivity. Qed.

(** C2, amended.  For every TCP frame that passes the header-length guards,
    [got_packet] completes and each record call it makes carries the payload
    length exactly as computed, IP total length - (IP header length + TCP
    header length), with no test of its sign. *)
Theorem tcp_payload_passed_unchecked plocal_ip header packet :
  tcp_dissected packet = true ->
  exists evs,
    got_packet plocal_ip header packet = Val evs /\
    records evs =
      spec_dispatch
        (Classification_of
           (match_val plocal_ip (src_ip_of packet) (dst_ip_of packet)))
        (sport_of packet) (dport_of packet)
        (ip_len_of packet - (size_ip_of packet + size_tcp_of packet)).
Proof.
  intros G. exists (tcp_accounting plocal_ip packet). split.
  - apply got_packet_tcp. exact G.
  - apply records_tcp_accounting.
Qed.

Lemma tcp_payload_passed_unchecked_witness :
  tcp_dissected tcp_bad_total_length_frame = true /\
  exists evs,
    got_packet "10.0.0.1" (hdr_of tcp_bad_total_length_frame)
      tcp_bad_total_length_frame = Val evs /\
    records evs = [("5000", -40, Sent)].
Proof.
  split; [reflexivity|].
  apply (tcp_payload_passed_unchecked "10.0.0.1"
           (hdr_of tcp_bad_total_length_frame) tcp_bad_total_length_frame).
  reflexivity.
Defined.

(** C3, as stated, fails: for the 42-byte loopback frame with UDP length
    field 8 the two record calls carry 8, not 8 - 8 = 0. *)
Lemma udp_loopback_records_carry_length_field :
  captured udp_loopback_frame = 42 /\
  uh_ulen_of udp_loopback_frame = 8 /\
  exists evs,
    got_packet "127.0.0.1" (hdr_of udp_loopback_frame) udp_loopback_frame
      = Val evs /\
    records evs = [("5000", 8, Sent); ("6000", 8, Received)] /\
    ~ Forall (fun r => snd (fst r) = uh_ulen_of udp_loopback_frame - 8)
        (records evs).
Proof.
  split; [reflexivity|]. split; [reflexivity|].
  eexists. split; [reflexivity|]. split; [reflexivity|].
  intros F. inversion F as [|r l Hr _]. cbv in Hr. discriminate Hr.
Qed.

(** C3, amended.  For every UDP frame that passes the capture-length
    guards, each record call carries the UDP length field itself (header
    and payload together). *)
Theorem udp_accounts_length_field plocal_ip header packet :
  udp_dissected header packet = true ->
  exists evs,
    got_packet plocal_ip header packet = Val evs /\
    records evs =
      spec_dispatch
        (Classification_of
           (match_val plocal_ip (src_ip_of packet) (dst_ip_of packet)))
        (sport_of packet) (dport_of packet) (uh_ulen_of packet).
Proof.
  intros G. exists (udp_accounting plocal_ip packet). split.
  - apply got_packet_udp. exact G.
  - apply records_udp_accounting.
Qed.

Lemma udp_accounts_length_field_witness :
  udp_dissected (hdr_of udp_loopback_frame) udp_loopback_frame = true /\
  exists evs,
    got_packet "127.0.0.1" (hdr_of udp_loopback_frame) udp_loopback_frame
      = Val evs /\
    records evs = [("5000", 8, Sent); ("6000", 8, Received)].
Proof.
  split; [reflexivity|].
  apply (udp_accounts_length_field "127.0.0.1" (hdr_of udp_loopback_frame)
           udp_loopback_frame).
  reflexivity.
Defined.

(** C4.  For every dissected transport frame, TCP or UDP, the record calls
    are those the classification of its two addresses prescribes: one Sent
    call on the source port for SourceIsLocal, one Received call on the
    destination port for DestinationIsLocal, both, with one and the same
    length, for BothLocal, and none for NoMatch. *)
Theorem accounting_follows_classification plocal_ip header packet :
  tcp_dissected packet || udp_dissected header packet = true ->
  exists evs payloadLength,
    got_packet plocal_ip header packet = Val evs /\
    records evs =
      spec_dispatch
        (spec_classify (localAddresses plocal_ip)
           (src_ip_of packet) (dst_ip_of packet))
        (sport_of packet) (dport_of packet) payloadLength.
Proof.
  intros G. rewrite <- Classification_of_match_val.
  apply orb_true_iff in G. destruct G as [G|G].
  - exists (tcp_accounting plocal_ip packet). eexists. split.
    + apply got_packet_tcp. exact G.
    + apply records_tcp_accounting.
  - exists (udp_accounting plocal_ip packet). eexists. split.
    + apply got_packet_udp. exact G.
    + apply records_udp_accounting.
Qed.

Lemma accounting_follows_classification_witness :
  tcp_dissected tcp_frame || udp_dissected (hdr_of tcp_frame) tcp_frame = true /\
  exists evs payloadLength,
    got_packet "93.184.216.34" (hdr_of tcp_frame) tcp_frame = Val evs /\
    records evs = [("80", payloadLength, Received)].
Proof.
  split; [reflexivity|].
  apply (accounting_follows_classification "93.184.216.34" (hdr_of tcp_frame)
           tcp_frame).
  reflexivity.
Defined.




(** C6.  For every frame whose IP header-length field encodes fewer than
    20 bytes, [got_packet] stops with the invalid-length message: nothing is
    read at an offset computed from the field and nothing is accounted. *)
Theorem got_packet_rejects_short_ip_header plocal_ip header packet :
  ip_of + off_ip_vhl < captured packet ->
  size_ip_of packet < 20 ->
  got_packet plocal_ip header packet =
    Val [printf_u "   * Invalid IP header length: %u bytes" (size_ip_of packet)].
Proof.
  intros C H. unfold got_packet. unfold_layout. cbv zeta.
  step_load. step_guard. reflexivity.
Qed.

Lemma got_packet_rejects_short_ip_header_witness :
  (ip_of + off_ip_vhl < captured short_ihl_frame /\
   size_ip_of short_ihl_frame < 20) /\
  got_packet "127.0.0.1" (hdr_of short_ihl_frame) short_ihl_frame =
    Val [printf_u "   * Invalid IP header length: %u bytes" 12].
Proof.
  split; [split; reflexivity|].
  apply (got_packet_rejects_short_ip_header "127.0.0.1"
           (hdr_of short_ihl_frame) short_ihl_frame); reflexivity.
Defined.

(** C7, as stated, fails: with 16 captured bytes after the IP header, and
    with a data offset of 60 bytes of which 20 were captured, [got_packet]
    reads the ports and accounts the frame. *)
Lemma truncated_tcp_header_is_accounted :
  (captured tcp_cut_header_frame - transport_of tcp_cut_header_frame = 16 /\
   got_packet "10.0.0.1" (hdr_of tcp_cut_header_frame) tcp_cut_header_frame
     = Val [update_byte_count "5000" 20 true]) /\
  (captured tcp_cut_options_frame - transport_of tcp_cut_options_frame = 20 /\
   size_tcp_of tcp_cut_options_frame = 60 /\
   got_packet "10.0.0.1" (hdr_of tcp_cut_options_frame) tcp_cut_options_frame
     = Val [update_byte_count "5000" 20 true]).
Proof. repeat split; reflexivity. Qed.

(** C7, amended.  For every TCP frame, dissection stops with the invalid
    TCP header length message when the data-offset field encodes fewer than
    20 bytes, before the ports are read and with nothing accounted. *)
Theorem got_packet_rejects_short_tcp_offset plocal_ip header packet :
  20 <= size_ip_of packet ->
  ip_p_of packet = IPPROTO_TCP ->
  transport_of packet + off_th_offx2 < captured packet ->
  size_tcp_of packet < 20 ->
  got_packet plocal_ip header packet =
    Val [printf_u "   * Invalid TCP header length: %u bytes" (size_tcp_of packet)].
Proof.
  intros Hip Hp Hc Htcp. unfold got_packet.
  pose proof (IP_HL_range (byte_at packet 14)) as R.
  unfold_layout. unfold IPPROTO_TCP in *. rewrite ?Z.add_0_r in *. cbv zeta.
  step_load. step_guard.
  step_load. step_load. step_load. step_guard.
  step_load. step_guard. reflexivity.
Qed.

Lemma got_packet_rejects_short_tcp_offset_witness :
  (20 <= size_ip_of tcp_short_offset_frame /\
   ip_p_of tcp_short_offset_frame = IPPROTO_TCP /\
   transport_of tcp_short_offset_frame + off_th_offx2
     < captured tcp_short_offset_frame /\
   size_tcp_of tcp_short_offset_frame < 20) /\
  got_packet "10.0.0.1" (hdr_of tcp_short_offset_frame) tcp_short_offset_frame =
    Val [printf_u "   * Invalid TCP header length: %u bytes" 16].
Proof.
  split; [repeat split; vm_compute; congruence|].
  apply (got_packet_rejects_short_tcp_offset "10.0.0.1"
           (hdr_of tcp_short_offset_frame) tcp_short_offset_frame);
    vm_compute; congruence.
Defined.

(** C8, as stated, fails: the code has no local-address set to be given,
    only [plocal_ip].  For the set of the two addresses 127.0.0.1 and
    192.168.1.5 the rule classifies a packet between them as BothLocal, and
    no value of [plocal_ip] makes the code do so. *)
Lemma no_plocal_ip_stands_for_two_addresses :
  spec_classify ["127.0.0.1"; "192.168.1.5"] "127.0.0.1" "192.168.1.5"
    = BothLocal /\
  ~ (exists plocal_ip,
       Classification_of (match_val plocal_ip "127.0.0.1" "192.168.1.5")
         = BothLocal).
Proof.
  split; [reflexivity|].
  intros [plocal_ip H]. rewrite match_val_cases, !is_local_eqb in H.
  change (String.eqb "127.0.0.1" "localhost") with false in H.
  change (String.eqb "192.168.1.5" "localhost") with false in H.
  rewrite !orb_false_l in H.
  destruct (String.eqb_spec "127.0.0.1" plocal_ip) as [E|N1].
  - subst plocal_ip. change (String.eqb "192.168.1.5" "127.0.0.1") with false in H.
    discriminate H.
  - destruct (String.eqb "192.168.1.5" plocal_ip); discriminate H.
Qed.

(** C8, amended.  For every [plocal_ip], the locality of a pair of
    addresses, as the dispatch chains read [match_val], is the four-way rule
    over the local-address set {"localhost", plocal_ip}, the sets the code
    can be configured with: BothLocal when both addresses are members,
    SourceIsLocal when only the source is, DestinationIsLocal when only the
    destination is, NoMatch otherwise.  [match_val] is one of 0, 1, 2, 3 and,
    being a function of the three strings, the same on every run. *)
Theorem match_val_classifies plocal_ip src_ip dst_ip :
  Classification_of (match_val plocal_ip src_ip dst_ip) =
    spec_classify (localAddresses plocal_ip) src_ip dst_ip /\
  In (match_val plocal_ip src_ip dst_ip) [0; 1; 2; 3].
Proof.
  split.
  - apply Classification_of_match_val.
  - rewrite match_val_cases.
    destruct (is_local plocal_ip src_ip), (is_local plocal_ip dst_ip);
      cbn [In]; auto.
Qed.

(** C9.  For every frame with a whole, valid-length IP header whose
    protocol is neither TCP nor UDP, [got_packet] prints the protocol line
    (ICMP, IP or unknown) and returns: no truncation or problem report and
    no accounting call. *)
Theorem other_protocols_not_accounted plocal_ip header packet :
  ip_of + sizeof_ip <= captured packet ->
  20 <= size_ip_of packet ->
  ip_p_of packet <> IPPROTO_TCP ->
  ip_p_of packet <> IPPROTO_UDP ->
  exists text,
    got_packet plocal_ip header packet = Val [printf text] /\
    In text ["   Protocol: ICMP"; "   Protocol: IP"; "   Protocol: unknown"] /\
    calls (got_packet plocal_ip header packet) = [].
Proof.
  intros Hc Hip Ht Hu.
  rewrite (got_packet_other plocal_ip header packet Hc Hip Ht Hu).
  eexists. split; [reflexivity|]. split; [|reflexivity].
  unfold protocol_line.
  destruct (ip_p_of packet =? IPPROTO_ICMP);
    [|destruct (ip_p_of packet =? IPPROTO_IP)]; cbn [In]; auto.
Qed.

Lemma other_protocols_not_accounted_witness :
  (ip_of + sizeof_ip <= captured icmp_frame /\
   20 <= size_ip_of icmp_frame /\
   ip_p_of icmp_frame <> IPPROTO_TCP /\
   ip_p_of icmp_frame <> IPPROTO_UDP) /\
  exists text,
    got_packet "10.0.0.1" (hdr_of icmp_frame) icmp_frame = Val [printf text] /\
    In text ["   Protocol: ICMP"; "   Protocol: IP"; "   Protocol: unknown"] /\
    calls (got_packet "10.0.0.1" (hdr_of icmp_frame) icmp_frame) = [].
Proof.
  split; [repeat split; vm_compute; congruence|].
  apply (other_protocols_not_accounted "10.0.0.1" (hdr_of icmp_frame) icmp_frame);
    vm_compute; congruence.
Defined.

(** C10.  The locality decision is string equality of each rendered
    address with "localhost" or with [plocal_ip] and nothing else:
    [match_val] is 3, 1, 2 or 0 according to which of the two addresses
    equals one of the two strings.  So addresses that differ from both
    strings are classified NoMatch, and the address "127.0.0.1" is
    classified local, as source or as destination, exactly when [plocal_ip]
    is "127.0.0.1". *)
Theorem locality_compares_two_strings plocal_ip src_ip dst_ip :
  let src_local :=
    String.eqb src_ip "localhost" || String.eqb src_ip plocal_ip in
  let dst_local :=
    String.eqb dst_ip "localhost" || String.eqb dst_ip plocal_ip in
  match_val plocal_ip src_ip dst_ip =
    (if src_local then if dst_local then 3 else 1
     else if dst_local then 2 else 0) /\
  (src_ip <> "localhost" -> src_ip <> plocal_ip ->
   dst_ip <> "localhost" -> dst_ip <> plocal_ip ->
   match_val plocal_ip src_ip dst_ip = 0 /\
   Classification_of (match_val plocal_ip src_ip dst_ip) = NoMatch) /\
  (Classification_of (match_val plocal_ip "127.0.0.1" dst_ip) = SourceIsLocal \/
   Classification_of (match_val plocal_ip "127.0.0.1" dst_ip) = BothLocal
   <-> plocal_ip = "127.0.0.1") /\
  (Classification_of (match_val plocal_ip src_ip "127.0.0.1") = DestinationIsLocal \/
   Classification_of (match_val plocal_ip src_ip "127.0.0.1") = BothLocal
   <-> plocal_ip = "127.0.0.1").
Proof.
  cbv zeta. rewrite !match_val_cases, !is_local_eqb.
  change (String.eqb "127.0.0.1" "localhost") with false.
  rewrite !orb_false_l.
  split; [reflexivity|]. split; [|split].
  - intros S1 S2 D1 D2.
    apply String.eqb_neq in S1, S2, D1, D2. rewrite S1, S2, D1, D2.
    split; reflexivity.
  - destruct (String.eqb_spec "127.0.0.1" plocal_ip) as [E|N].
    + subst plocal_ip. split; [reflexivity|]. intros _.
      destruct (String.eqb dst_ip "localhost" || String.eqb dst_ip "127.0.0.1");
        [right|left]; reflexivity.
    + split.
      * destruct (String.eqb dst_ip "localhost" || String.eqb dst_ip plocal_ip);
          intros [H|H]; discriminate H.
      * intros E. symmetry in E. contradiction.
  - destruct (String.eqb_spec "127.0.0.1" plocal_ip) as [E|N].
    + subst plocal_ip. split; [reflexivity|]. intros _.
      destruct (String.eqb src_ip "localhost" || String.eqb src_ip "127.0.0.1");
        [right|left]; reflexivity.
    + split.
      * destruct (String.eqb src_ip "localhost" || String.eqb src_ip plocal_ip);
          intros [H|H]; discriminate H.
      * intros E. symmetry in E. contradiction.
Qed.

(** ** Values that complete loads return *)

Lemma load8_val packet off v :
  load8 packet off = Val v ->
  v = byte_at packet off /\ 0 <= off < captured packet.
Proof.
  unfold load8, byte_at, captured. intros H.
  destruct (Z.ltb_spec off 0); [discriminate|].
  destruct (nth_error packet (Z.to_nat off)) eqn:E; [|discriminate].
  injection H as <-. split; [reflexivity|].
  assert (nth_error packet (Z.to_nat off) <> None) as N by congruence.
  apply nth_error_Some in N. lia.
Qed.

Lemma load16_val packet off v :
  load16 packet off = Val v ->
  ntohs v = be16 packet off /\ 0 <= off /\ off + 1 < captured packet.
Proof.
  unfold load16. intros H.
  destruct (load8 packet off) as [b0|] eqn:E0; [|discriminate].
  destruct (load8 packet (off + 1)) as [b1|] eqn:E1; [|discriminate].
  cbn [bind] in H. injection H as <-.
  apply load8_val in E0. apply load8_val in E1.
  destruct E0 as [-> ?], E1 as [-> ?]. split; [|lia].
  apply ntohs_overlay; apply byte_at_range.
Qed.

Lemma load32_val packet off v :
  load32 packet off = Val v ->
  v = le32 packet off /\ 0 <= off /\ off + 3 < captured packet.
Proof.
  intros H. assert (0 <= off /\ off + 3 < captured packet) as B.
  { unfold load32, load16 in H.
    destruct (load8 packet off) eqn:E0; [|discriminate].
    destruct (load8 packet (off + 1)) eqn:E1; [|discriminate].
    destruct (load8 packet (off + 2)) eqn:E2; [|discriminate].
    destruct (load8 packet (off + 2 + 1)) eqn:E3; [|discriminate].
    apply load8_val in E0. apply load8_val in E3. lia. }
  split; [|exact B]. rewrite load32_in in H by lia. congruence.
Qed.

Lemma be16_range packet off : 0 <= be16 packet off <= 65535.
Proof.
  unfold be16. pose proof (byte_at_range packet off).
  pose proof (byte_at_range packet (off + 1)). lia.
Qed.

Lemma TH_OFF_range v : 0 <= TH_OFF v <= 15.
Proof.
  unfold TH_OFF. rewrite Z.shiftr_land.
  change (Z.shiftr 240 4) with (Z.ones 4).
  rewrite Z.land_ones by lia. change (2 ^ 4) with 16.
  pose proof (Z.mod_pos_bound (Z.shiftr v 4) 16). lia.
Qed.

Lemma ntohs_range x : 0 <= ntohs x <= 65535.
Proof.
  unfold ntohs. change 255 with (Z.ones 8).
  rewrite !Z.land_ones by lia. change (2 ^ 8) with 256.
  pose proof (Z.mod_pos_bound x 256).
  pose proof (Z.mod_pos_bound (Z.shiftr x 8) 256).
  rewrite Z.lor_comm, lor_shiftl_add by lia. change (2 ^ 8) with 256. lia.
Qed.

(** ** What every run accounts *)

(** Split the run at the load or guard it meets next. *)
Ltac next_step :=
  match goal with
  | |- context [bind ?m _] => destruct m eqn:?; cbn [bind]
  | |- context [if ?a <? ?b then _ else _] => destruct (Z.ltb_spec a b)
  | |- context [if negb ?c then _ else _] => destruct c eqn:?; cbn [negb]
  | |- context [if ?c then _ else _] => destruct c eqn:?
  end.

Ltac use_loads :=
  repeat match goal with
  | H : load16 _ _ = Val _ |- _ => apply load16_val in H; destruct H as (? & ? & ?)
  | H : load32 _ _ = Val _ |- _ => apply load32_val in H; destruct H as (? & ? & ?)
  | H : load8 _ _ = Val _ |- _ => apply load8_val in H; destruct H as (? & ?)
  end.

(** X1.  Whatever the frame and the header, a run of [got_packet] makes at
    most two accounting calls, and the byte count of each lies between -120
    and 65535: the [int] arithmetic of the payload size cannot overflow. *)
Theorem accounting_calls_bounded plocal_ip header packet :
  (List.length (calls (got_packet plocal_ip header packet)) <= 2)%nat /\
  Forall (fun e => match e with
                   | update_byte_count _ nbytes _ => -120 <= nbytes <= 65535
                   | _ => True
                   end)
         (calls (got_packet plocal_ip header packet)).
Proof.
  unfold got_packet, dump_UDP_packet. cbv zeta.
  repeat next_step; cbn [calls filter is_update List.length];
    (split; [lia|]);
    repeat constructor;
    repeat match goal with
    | |- context [ntohs ?x] => pose proof (ntohs_range x); generalize dependent (ntohs x); intros
    end;
    repeat match goal with
    | |- context [IP_HL ?x] => pose proof (IP_HL_range x); generalize dependent (IP_HL x); intros
    | |- context [TH_OFF ?x] => pose proof (TH_OFF_range x); generalize dependent (TH_OFF x); intros
    end; try lia.
Qed.

(** ** Where [got_packet] reads *)

Lemma load8_past packet off o :
  load8 packet off = ReadPast o -> o = off /\ (off < 0 \/ captured packet <= off).
Proof.
  unfold load8, captured. intros H.
  destruct (Z.ltb_spec off 0); [injection H as <-; lia|].
  destruct (nth_error packet (Z.to_nat off)) eqn:E; [discriminate|].
  injection H as <-. apply nth_error_None in E. lia.
Qed.

Lemma load16_past packet off o :
  0 <= off -> load16 packet off = ReadPast o -> captured packet <= o.
Proof.
  unfold load16. intros P H.
  destruct (load8 packet off) eqn:E0; cbn [bind] in H.
  - destruct (load8 packet (off + 1)) eqn:E1; cbn [bind] in H; [discriminate|].
    injection H as <-. apply load8_past in E1. lia.
  - injection H as <-. apply load8_past in E0. lia.
Qed.

Lemma load32_past packet off o :
  0 <= off -> load32 packet off = ReadPast o -> captured packet <= o.
Proof.
  unfold load32. intros P H.
  destruct (load16 packet off) eqn:E0; cbn [bind] in H.
  - destruct (load16 packet (off + 2)) eqn:E1; cbn [bind] in H; [discriminate|].
    injection H as <-. apply load16_past in E1; lia.
  - injection H as <-. apply load16_past in E0; lia.
Qed.

Lemma got_packet_in_bounds_cases plocal_ip header packet :
  0 <= caplen header <= captured packet ->
  caplen header < 2 ^ 32 ->
  if got_packet_in_bounds packet
  then exists evs, got_packet plocal_ip header packet = Val evs
  else exists off,
    got_packet plocal_ip header packet = ReadPast off /\ captured packet <= off.
Proof.
  intros Hc Hw. unfold got_packet_in_bounds, got_packet.
  pose proof (IP_HL_range (byte_at packet 14)) as R.
  unfold_layout. cbv zeta. rewrite ?Z.add_0_r.
  destruct (Z.ltb_spec 14 (captured packet)); cbn [andb].
  2: { rewrite load8_out by lia. eexists; split; [reflexivity|lia]. }
  rewrite (load8_in packet 14) by lia. cbn [bind].
  destruct (Z.ltb_spec (IP_HL (byte_at packet 14) * 4) 20); cbn [orb].
  { eexists; reflexivity. }
  destruct (Z.leb_spec (14 + 20) (captured packet)); cbn [andb].
  2: { destruct (load32 packet (14 + 12)) eqn:E1; cbn [bind].
       - destruct (load32 packet (14 + 16)) eqn:E2; cbn [bind].
         + apply load32_val in E2. lia.
         + apply load32_past in E2; [|lia]. eexists; split; [reflexivity|lia].
       - apply load32_past in E1; [|lia]. eexists; split; [reflexivity|lia]. }
  rewrite !load32_in by lia. cbn [bind].
  rewrite (load8_in packet (14 + 9)) by lia. cbn [bind].
  destruct (byte_at packet (14 + 9) =? IPPROTO_TCP) eqn:T; cbn [negb orb].
  - destruct (Z.ltb_spec (14 + IP_HL (byte_at packet 14) * 4 + 12) (captured packet)).
    + rewrite load8_in by lia. cbn [bind].
      destruct (_ <? 20); [eexists; reflexivity|].
      destruct (load16_in packet (14 + IP_HL (byte_at packet 14) * 4 + 0))
        as (v1 & -> & _); [lia|lia|].
      destruct (load16_in packet (14 + IP_HL (byte_at packet 14) * 4 + 2))
        as (v2 & -> & _); [lia|lia|].
      destruct (load16_in packet (14 + 2)) as (v3 & -> & _); [lia|lia|].
      cbn [bind]. split_chain; eexists; reflexivity.
    + rewrite load8_out by lia. eexists; split; [reflexivity|lia].
  - destruct (_ =? IPPROTO_UDP).
    + apply dump_UDP_packet_in_bounds; lia.
    + split_chain; eexists; reflexivity.
Qed.

(** X2.  With a header whose [caplen] does not exceed the captured bytes,
    [got_packet] completes without reading past them exactly on the frames
    [got_packet_in_bounds] describes; on every other frame it reads at an
    offset that was not captured. *)
Theorem got_packet_in_bounds_iff plocal_ip header packet :
  0 <= caplen header <= captured packet ->
  caplen header < 2 ^ 32 ->
  if got_packet_in_bounds packet
  then exists evs, got_packet plocal_ip header packet = Val evs
  else exists off,
    got_packet plocal_ip header packet = ReadPast off /\ captured packet <= off.
Proof. apply got_packet_in_bounds_cases. Qed.

Lemma got_packet_in_bounds_iff_witness :
  (0 <= caplen (hdr_of tcp_frame) <= captured tcp_frame /\
   caplen (hdr_of tcp_frame) < 2 ^ 32) /\
  exists evs, got_packet "10.0.0.1" (hdr_of tcp_frame) tcp_frame = Val evs.
Proof.
  split; [split; [split|]; vm_compute; congruence|].
  apply (got_packet_in_bounds_iff "10.0.0.1" (hdr_of tcp_frame) tcp_frame);
    [split|]; vm_compute; congruence.
Defined.

(** X3.  On every frame whose protocol byte is not UDP the outcome of
    [got_packet] is the same for any two pcap headers: outside the UDP path
    neither the captured length nor the timestamp is consulted. *)
Theorem got_packet_ignores_header_unless_udp plocal_ip h1 h2 packet :
  ip_p_of packet <> IPPROTO_UDP ->
  got_packet plocal_ip h1 packet = got_packet plocal_ip h2 packet.
Proof.
  intros NU. unfold got_packet. unfold_layout. cbv zeta.
  destruct (load8 packet (14 + 0)); cbn [bind]; [|reflexivity].
  destruct (_ <? 20); [reflexivity|].
  destruct (load32 packet (14 + 12)); cbn [bind]; [|reflexivity].
  destruct (load32 packet (14 + 16)); cbn [bind]; [|reflexivity].
  destruct (load8 packet (14 + 9)) as [p|] eqn:E; cbn [bind]; [|reflexivity].
  apply load8_val in E. destruct E as [-> _].
  destruct (_ =? IPPROTO_TCP); [reflexivity|].
  destruct (Z.eqb_spec (byte_at packet (14 + 9)) IPPROTO_UDP); [contradiction|].
  reflexivity.
Qed.

Lemma got_packet_ignores_header_unless_udp_witness :
  ip_p_of tcp_frame <> IPPROTO_UDP /\
  got_packet "10.0.0.1" (hdr_of tcp_frame) tcp_frame =
  got_packet "10.0.0.1" (hdr_of runt_frame) tcp_frame.
Proof.
  split; [vm_compute; congruence|].
  apply (got_packet_ignores_header_unless_udp "10.0.0.1" (hdr_of tcp_frame)
           (hdr_of runt_frame) tcp_frame).
  vm_compute; congruence.
Defined.

Lemma calls_nil_without_local_address plocal_ip header packet :
  match_val plocal_ip (src_ip_of packet) (dst_ip_of packet) = 0 ->
  calls (got_packet plocal_ip header packet) = [].
Proof.
  intros M. unfold got_packet, dump_UDP_packet.
  unfold_layout. cbv zeta.
  destruct (load8 packet (14 + 0)); cbn [bind]; [|reflexivity].
  destruct (_ <? 20); [reflexivity|].
  destruct (load32 packet (14 + 12)) eqn:E1; cbn [bind]; [|reflexivity].
  destruct (load32 packet (14 + 16)) eqn:E2; cbn [bind]; [|reflexivity].
  apply load32_val in E1. apply load32_val in E2.
  destruct E1 as [-> _], E2 as [-> _]. rewrite M.
  change (0 =? 1) with false. change (0 =? 2) with false.
  change (0 =? 3) with false. cbv iota.
  repeat next_step; reflexivity.
Qed.

(** X4.  A frame neither of whose rendered addresses is local is never
    accounted, whatever else it holds and whatever the header says. *)
Theorem no_local_address_no_call plocal_ip header packet :
  match_val plocal_ip (src_ip_of packet) (dst_ip_of packet) = 0 ->
  calls (got_packet plocal_ip header packet) = [].
Proof. apply calls_nil_without_local_address. Qed.

Lemma no_local_address_no_call_witness :
  match_val "192.168.1.5" (src_ip_of tcp_frame) (dst_ip_of tcp_frame) = 0 /\
  calls (got_packet "192.168.1.5" (hdr_of tcp_frame) tcp_frame) = [].
Proof.
  split; [reflexivity|].
  apply (no_local_address_no_call "192.168.1.5" (hdr_of tcp_frame) tcp_frame).
  reflexivity.
Defined.

(** ** Rendered addresses and port keys *)

Lemma to_string_head n :
  exists c s, to_string n = String c s /\ c <> "l"%char.
Proof.
  unfold to_string.
  destruct (Z.to_int n) as [d|d]; cbn [NilZero.string_of_int].
  - unfold NilZero.string_of_uint.
    destruct d; cbn [NilEmpty.string_of_uint];
      eexists; eexists; (split; [reflexivity|discriminate]).
  - eexists; eexists. split; [reflexivity|discriminate].
Qed.

Lemma inet_ntoa_not_localhost s_addr : inet_ntoa s_addr <> "localhost".
Proof.
  unfold inet_ntoa.
  destruct (to_string_head (Z.land s_addr 255)) as (c & s & -> & N).
  cbn [append]. intros E. injection E as E _. congruence.
Qed.

(** X5.  [inet_ntoa] never renders an address as "localhost", so of the two
    comparisons of [got_packet] only the one with [plocal_ip] can succeed:
    a rendered address is local exactly when it equals [plocal_ip]. *)
Theorem localhost_comparison_never_matches plocal_ip s_addr :
  strcmp (inet_ntoa s_addr) "localhost" <> 0 /\
  is_local plocal_ip (inet_ntoa s_addr) = String.eqb (inet_ntoa s_addr) plocal_ip.
Proof.
  pose proof (inet_ntoa_not_localhost s_addr) as N.
  apply String.eqb_neq in N. split.
  - intros E. apply Z.eqb_eq in E. rewrite strcmp_eq in E. congruence.
  - rewrite is_local_eqb, N. reflexivity.
Qed.

(** X6.  With [plocal_ip] set to "localhost" no frame is ever accounted. *)
Theorem plocal_localhost_accounts_nothing header packet :
  calls (got_packet "localhost" header packet) = [].
Proof.
  apply calls_nil_without_local_address. rewrite match_val_cases.
  unfold src_ip_of, dst_ip_of.
  rewrite !is_local_eqb.
  pose proof (inet_ntoa_not_localhost (le32 packet (ip_of + off_ip_src))) as N1.
  pose proof (inet_ntoa_not_localhost (le32 packet (ip_of + off_ip_dst))) as N2.
  apply String.eqb_neq in N1. apply String.eqb_neq in N2.
  rewrite N1, N2. reflexivity.
Qed.




Lemma le32_bytes b0 b1 b2 b3 :
  0 <= b0 < 256 -> 0 <= b1 < 256 -> 0 <= b2 < 256 -> 0 <= b3 < 256 ->
  let v := Z.lor (Z.lor b0 (Z.shiftl b1 8)) (Z.shiftl (Z.lor b2 (Z.shiftl b3 8)) 16) in
  Z.land v 255 = b0 /\
  Z.land (Z.shiftr v 8) 255 = b1 /\
  Z.land (Z.shiftr v 16) 255 = b2 /\
  Z.land (Z.shiftr v 24) 255 = b3.
Proof.
  intros H0 H1 H2 H3 v. subst v.
  rewrite (lor_shiftl_add b0 b1 8), (lor_shiftl_add b2 b3 8) by lia.
  rewrite lor_shiftl_add by (change (2 ^ 16) with 65536; change (2 ^ 8) with 256; lia).
  change 255 with (Z.ones 8).
  rewrite !Z.land_ones, !Z.shiftr_div_pow2 by lia.
  change (2 ^ 8) with 256. change (2 ^ 16) with 65536. change (2 ^ 24) with 16777216.
  repeat split.
  - symmetry. apply (Z.mod_unique _ _ (b1 + 256 * b2 + 65536 * b3)); lia.
  - replace ((b0 + b1 * 256 + (b2 + b3 * 256) * 65536) / 256)
      with (b1 + 256 * b2 + 65536 * b3)
      by (apply (Z.div_unique _ _ _ b0); lia).
    symmetry. apply (Z.mod_unique _ _ (b2 + 256 * b3)); lia.
  - replace ((b0 + b1 * 256 + (b2 + b3 * 256) * 65536) / 65536)
      with (b2 + 256 * b3)
      by (apply (Z.div_unique _ _ _ (b0 + b1 * 256)); lia).
    symmetry. apply (Z.mod_unique _ _ b3); lia.
  - replace ((b0 + b1 * 256 + (b2 + b3 * 256) * 65536) / 16777216)
      with b3
      by (apply (Z.div_unique _ _ _ (b0 + b1 * 256 + b2 * 65536)); lia).
    apply Z.mod_small; lia.
Qed.

(** X8.  The address [got_packet] compares is the dotted decimal of the
    four address bytes in the order they stand in the frame: the overlay of
    a little-endian [s_addr] and [inet_ntoa] undo each other. *)
Theorem rendered_address_is_wire_order packet off :
  inet_ntoa (le32 packet off) =
    to_string (byte_at packet off) ++ "." ++
    to_string (byte_at packet (off + 1)) ++ "." ++
    to_string (byte_at packet (off + 2)) ++ "." ++
    to_string (byte_at packet (off + 2 + 1)).
Proof.
  unfold inet_ntoa, le32.
  destruct (le32_bytes (byte_at packet off) (byte_at packet (off + 1))
              (byte_at packet (off + 2)) (byte_at packet (off + 2 + 1)))
    as (E0 & E1 & E2 & E3); try apply byte_at_range.
  rewrite E0, E1, E2, E3. reflexivity.
Qed.

(** ** dump_UDP_packet called on its own *)

(** X9.  Called directly with a capture length that the frame covers,
    [dump_UDP_packet] accounts a UDP frame whose headers are captured as its
    [match_val] argument says: 1 gives one Sent call on the source port, 2
    one Received call on the destination port, 3 both, any other value
    nothing.  It takes the UDP header at 14 + IHL x 4 whatever the IHL, also
    below 5, and reports nothing else. *)
Theorem dump_UDP_packet_accounts packet t capture_len m :
  ip_of + sizeof_ip <= capture_len <= captured packet ->
  capture_len < 2 ^ 32 ->
  ip_p_of packet = IPPROTO_UDP ->
  transport_of packet + sizeof_UDP_hdr <= capture_len ->
  exists evs,
    dump_UDP_packet packet t capture_len m = Val evs /\
    records evs =
      spec_dispatch (Classification_of m) (sport_of packet) (dport_of packet)
        (uh_ulen_of packet) /\
    List.length evs = List.length (records evs).
Proof.
  intros Hc Hw Hp Hu. unfold dump_UDP_packet, Classification_of.
  pose proof (IP_HL_range (byte_at packet 14)) as R.
  unfold_layout. unfold IPPROTO_UDP in *. rewrite ?Z.add_0_r in *. cbv zeta.
  destruct (Z.ltb_spec capture_len 14); [lia|].
  rewrite (u32_small (capture_len - 14)) by lia.
  destruct (Z.ltb_spec (capture_len - 14) 20); [lia|].
  rewrite (load8_in packet 14) by lia. cbn [bind].
  destruct (Z.ltb_spec (capture_len - 14) (IP_HL (byte_at packet 14) * 4)); [lia|].
  rewrite (load8_in packet (14 + 9)) by lia. cbn [bind].
  rewrite Hp. cbn [Z.eqb Pos.eqb negb].
  rewrite u32_small by lia.
  destruct (Z.ltb_spec (capture_len - 14 - IP_HL (byte_at packet 14) * 4) 8); [lia|].
  destruct (load16_in packet (14 + IP_HL (byte_at packet 14) * 4 + 0))
    as (v1 & E1 & V1); [lia|lia|].
  destruct (load16_in packet (14 + IP_HL (byte_at packet 14) * 4 + 2))
    as (v2 & E2 & V2); [lia|lia|].
  destruct (load16_in packet (14 + IP_HL (byte_at packet 14) * 4 + 4))
    as (v3 & E3 & V3); [lia|lia|].
  rewrite E1, E2, E3. cbn [bind]. rewrite V1, V2, V3, Z.add_0_r.
  destruct (m =? 1); [eexists; repeat split; reflexivity|].
  destruct (m =? 2); [eexists; repeat split; reflexivity|].
  destruct (m =? 3); eexists; repeat split; reflexivity.
Qed.

Lemma dump_UDP_packet_accounts_witness :
  (ip_of + sizeof_ip <= 42 <= captured udp_loopback_frame /\
   42 < 2 ^ 32 /\
   ip_p_of udp_loopback_frame = IPPROTO_UDP /\
   transport_of udp_loopback_frame + sizeof_UDP_hdr <= 42) /\
  exists evs,
    dump_UDP_packet udp_loopback_frame (ts (hdr_of udp_loopback_frame)) 42 2
      = Val evs /\
    records evs = [("6000", 8, Received)] /\
    List.length evs = List.length (records evs).
Proof.
  split; [repeat split; vm_compute; congruence|].
  apply (dump_UDP_packet_accounts udp_loopback_frame
           (ts (hdr_of udp_loopback_frame)) 42 2);
    repeat split; vm_compute; congruence.
Defined.

(** X10.  [dump_UDP_packet] accounts nothing for a frame that is truncated
    or not UDP: whenever a run makes an accounting call, the capture length
    covers the Ethernet, IP and UDP headers, the protocol is UDP and
    [match_val] is 1, 2 or 3. *)
Theorem dump_UDP_packet_accounts_only_whole_udp packet t capture_len m :
  0 <= capture_len < 2 ^ 32 ->
  calls (dump_UDP_packet packet t capture_len m) <> [] ->
  ip_of + sizeof_ip <= capture_len /\
  transport_of packet + sizeof_UDP_hdr <= capture_len /\
  ip_p_of packet = IPPROTO_UDP /\
  1 <= m <= 3.
Proof.
  intros Hw. unfold dump_UDP_packet.
  pose proof (IP_HL_range (byte_at packet 14)) as R.
  unfold_layout. rewrite ?Z.add_0_r in *. cbv zeta.
  destruct (Z.ltb_spec capture_len 14); [intros C; exfalso; apply C; reflexivity|].
  rewrite (u32_small (capture_len - 14)) by lia.
  destruct (Z.ltb_spec (capture_len - 14) 20); [intros C; exfalso; apply C; reflexivity|].
  destruct (load8 packet 14) as [v|] eqn:E; cbn [bind];
    [|intros C; exfalso; apply C; reflexivity].
  apply load8_val in E. destruct E as [-> _].
  destruct (Z.ltb_spec (capture_len - 14) (IP_HL (byte_at packet 14) * 4));
    [intros C; exfalso; apply C; reflexivity|].
  destruct (load8 packet (14 + 9)) as [p|] eqn:E; cbn [bind];
    [|intros C; exfalso; apply C; reflexivity].
  apply load8_val in E. destruct E as [-> _].
  destruct (Z.eqb_spec (byte_at packet (14 + 9)) IPPROTO_UDP) as [P|P]; cbn [negb];
    [|intros C; exfalso; apply C; reflexivity].
  rewrite u32_small by lia.
  destruct (Z.ltb_spec (capture_len - 14 - IP_HL (byte_at packet 14) * 4) 8);
    [intros C; exfalso; apply C; reflexivity|].
  destruct (Z.eqb_spec m 1); [intros _; repeat split; try assumption; lia|].
  destruct (Z.eqb_spec m 2); [intros _; repeat split; try assumption; lia|].
  destruct (Z.eqb_spec m 3); [intros _; repeat split; try assumption; lia|].
  intros C; exfalso; apply C; reflexivity.
Qed.

Lemma dump_UDP_packet_accounts_only_whole_udp_witness :
  (0 <= 42 < 2 ^ 32 /\
   calls (dump_UDP_packet udp_loopback_frame (ts (hdr_of udp_loopback_frame)) 42 1)
     <> []) /\
  ip_of + sizeof_ip <= 42 /\
  transport_of udp_loopback_frame + sizeof_UDP_hdr <= 42 /\
  ip_p_of udp_loopback_frame = IPPROTO_UDP /\
  1 <= 1 <= 3.
Proof.
  split; [split; [split|]; vm_compute; congruence|].
  apply (dump_UDP_packet_accounts_only_whole_udp udp_loopback_frame
           (ts (hdr_of udp_loopback_frame)) 42 1);
    [split|]; vm_compute; congruence.
Defined.

(** X11.  When the capture length does not cover the Ethernet header and
    the IP header with its options, [dump_UDP_packet] makes exactly one
    truncation report, naming one of these headers, and nothing else. *)
Theorem dump_UDP_packet_reports_truncated_ip packet t capture_len m :
  0 <= capture_len <= captured packet ->
  capture_len < 2 ^ 32 ->
  capture_len < ip_of + Z.max sizeof_ip (size_ip_of packet) ->
  exists hdr,
    dump_UDP_packet packet t capture_len m = Val [too_short t hdr] /\
    In hdr ["Ethernet header"; "IP header"; "IP header with options"].
Proof.
  intros Hc Hw Ht. unfold dump_UDP_packet.
  unfold_layout. rewrite ?Z.add_0_r in *. cbv zeta.
  destruct (Z.ltb_spec capture_len 14);
    [eexists; split; [reflexivity|cbn [In]; auto]|].
  rewrite (u32_small (capture_len - 14)) by lia.
  destruct (Z.ltb_spec (capture_len - 14) 20);
    [eexists; split; [reflexivity|cbn [In]; auto]|].
  rewrite (load8_in packet 14) by lia. cbn [bind].
  destruct (Z.ltb_spec (capture_len - 14) (IP_HL (byte_at packet 14) * 4));
    [eexists; split; [reflexivity|cbn [In]; auto]|].
  lia.
Qed.

Lemma dump_UDP_packet_reports_truncated_ip_witness :
  (0 <= 30 <= captured udp_loopback_frame /\ 30 < 2 ^ 32 /\
   30 < ip_of + Z.max sizeof_ip (size_ip_of udp_loopback_frame)) /\
  exists hdr,
    dump_UDP_packet udp_loopback_frame (ts (hdr_of udp_loopback_frame)) 30 3
      = Val [too_short (ts (hdr_of udp_loopback_frame)) hdr] /\
    In hdr ["Ethernet header"; "IP header"; "IP header with options"].
Proof.
  split; [repeat split; vm_compute; congruence|].
  apply (dump_UDP_packet_reports_truncated_ip udp_loopback_frame
           (ts (hdr_of udp_loopback_frame)) 30 3);
    repeat split; vm_compute; congruence.
Defined.

(** X12.  In the pipeline, a UDP frame whose IP header of at least 20
    bytes is captured but whose options or UDP header are cut short is
    reported as truncated by [got_packet] and not accounted; no byte past
    the captured ones is read. *)
Theorem got_packet_reports_truncated_udp plocal_ip header packet :
  caplen header = captured packet ->
  captured packet < 2 ^ 32 ->
  ip_of + sizeof_ip <= captured packet ->
  20 <= size_ip_of packet ->
  ip_p_of packet = IPPROTO_UDP ->
  captured packet < transport_of packet + sizeof_UDP_hdr ->
  exists hdr,
    got_packet plocal_ip header packet = Val [too_short (ts header) hdr] /\
    In hdr ["IP header with options"; "UDP header"].
Proof.
  intros Hh Hw Hc Hip Hp Ht. unfold got_packet.
  pose proof (IP_HL_range (byte_at packet 14)) as R.
  unfold_layout. unfold IPPROTO_TCP, IPPROTO_UDP in *.
  rewrite ?Z.add_0_r in *. cbv zeta.
  rewrite (load8_in packet 14) by lia. cbn [bind].
  destruct (Z.ltb_spec (IP_HL (byte_at packet 14) * 4) 20); [lia|].
  rewrite !load32_in by lia. cbn [bind].
  rewrite (load8_in packet (14 + 9)) by lia. cbn [bind].
  rewrite Hp. cbn [Z.eqb Pos.eqb].
  unfold dump_UDP_packet. unfold_layout. unfold IPPROTO_UDP.
  rewrite ?Z.add_0_r, Hh. cbv zeta.
  destruct (Z.ltb_spec (captured packet) 14); [lia|].
  rewrite (u32_small (captured packet - 14)) by lia.
  destruct (Z.ltb_spec (captured packet - 14) 20); [lia|].
  rewrite (load8_in packet 14) by lia. cbn [bind].
  destruct (Z.ltb_spec (captured packet - 14) (IP_HL (byte_at packet 14) * 4));
    [eexists; split; [reflexivity|cbn [In]; auto]|].
  rewrite (load8_in packet (14 + 9)) by lia. cbn [bind].
  rewrite Hp. cbn [Z.eqb Pos.eqb negb].
  rewrite u32_small by lia.
  destruct (Z.ltb_spec (captured packet - 14 - IP_HL (byte_at packet 14) * 4) 8);
    [eexists; split; [reflexivity|cbn [In]; auto]|].
  lia.
Qed.

Lemma got_packet_reports_truncated_udp_witness :
  (caplen (hdr_of udp_cut_frame) = captured udp_cut_frame /\
   captured udp_cut_frame < 2 ^ 32 /\
   ip_of + sizeof_ip <= captured udp_cut_frame /\
   20 <= size_ip_of udp_cut_frame /\
   ip_p_of udp_cut_frame = IPPROTO_UDP /\
   captured udp_cut_frame < transport_of udp_cut_frame + sizeof_UDP_hdr) /\
  exists hdr,
    got_packet "127.0.0.1" (hdr_of udp_cut_frame) udp_cut_frame
      = Val [too_short (ts (hdr_of udp_cut_frame)) hdr] /\
    In hdr ["IP header with options"; "UDP header"].
Proof.
  split; [repeat split; vm_compute; congruence|].
  apply (got_packet_reports_truncated_udp "127.0.0.1" (hdr_of udp_cut_frame)
           udp_cut_frame); vm_compute; congruence.
Defined.


(** ** print_payload *)

Lemma chunk_count_step len :
  16 < len -> chunk_count len = S (chunk_count (len - 16)).
Proof.
  intros H. unfold chunk_count.
  replace (len + 15) with ((len - 16 + 15) + 1 * 16) by lia.
  rewrite Z.div_add by lia.
  assert (0 <= (len - 16 + 15) / 16) by (apply Z.div_pos; lia).
  rewrite Z2Nat.inj_add by lia. change (Z.to_nat 1) with 1%nat. lia.
Qed.

Lemma chunk_count_small len : 0 < len <= 16 -> chunk_count len = 1%nat.
Proof.
  intros H. unfold chunk_count.
  assert ((len + 15) / 16 = 1) as ->; [|reflexivity].
  symmetry. apply (Z.div_unique _ _ _ (len - 1)); lia.
Qed.

Lemma print_payload_loop_chunks fuel : forall ch len_rem offset,
  16 < len_rem ->
  len_rem <= 16 * Z.of_nat fuel + 16 ->
  print_payload_loop fuel ch len_rem offset =
    Some (map (chunk ch len_rem offset) (seq 0 (chunk_count len_rem))).
Proof.
  induction fuel as [|fuel IH]; intros ch len_rem offset Hlo Hhi; [lia|].
  cbn [print_payload_loop]. unfold line_width. cbv zeta.
  rewrite (Z.rem_small 16 len_rem) by lia.
  rewrite (chunk_count_step len_rem) by lia.
  cbn [seq map].
  destruct (Z.leb_spec (len_rem - 16) 16) as [L|G].
  - rewrite (chunk_count_small (len_rem - 16)) by lia. cbn [seq map].
    unfold chunk. cbn [Z.of_nat Pos.of_succ_nat].
    repeat (f_equal; try lia).
  - rewrite IH by lia. rewrite <- seq_shift, map_map.
    f_equal. f_equal.
    + unfold chunk. cbn [Z.of_nat]. f_equal; lia.
    + apply map_ext. intros i. unfold chunk. f_equal; lia.
Qed.

(** The calls of [print_payload] in closed form: one chunk of 16 bytes per
    line, the last one with what is left. *)
Lemma print_payload_closed_form fuel len :
  len <= 16 * Z.of_nat fuel + 16 ->
  print_payload fuel len = Some (map (chunk 0 len 0) (seq 0 (chunk_count len))).
Proof.
  intros Hf. unfold print_payload, line_width.
  destruct (Z.leb_spec len 0) as [N|P].
  - unfold chunk_count.
    assert ((len + 15) / 16 <= 0) as Z0.
    { apply Z.lt_succ_r. apply Z.div_lt_upper_bound; lia. }
    replace (Z.to_nat ((len + 15) / 16)) with 0%nat by lia. reflexivity.
  - destruct (Z.leb_spec len 16) as [S|B].
    + rewrite chunk_count_small by lia. cbn [seq map]. unfold chunk.
      cbn [Z.of_nat]. repeat (f_equal; try lia).
    + apply print_payload_loop_chunks; lia.
Qed.

Lemma firstn_add_split {A : Type} (n m : nat) (l : list A) :
  firstn (n + m) l = (firstn n l ++ firstn m (skipn n l))%list.
Proof.
  revert l. induction n as [|n IH]; intros l; [reflexivity|].
  destruct l as [|x l]; cbn [Nat.add firstn skipn app].
  - rewrite firstn_nil. reflexivity.
  - rewrite IH. reflexivity.
Qed.

Lemma chunks_cover (payload : list byte) (k : nat) : forall (ch len : Z) offset,
  0 <= ch -> 0 <= len -> len <= 16 * Z.of_nat k ->
  List.concat (map (fun i => line_bytes payload (chunk ch len offset i)) (seq 0 k))
    = firstn (Z.to_nat len) (skipn (Z.to_nat ch) payload).
Proof.
  induction k as [|k IH]; intros ch len offset Hch Hlen Hk.
  - replace len with 0 by lia. reflexivity.
  - cbn [seq map List.concat]. rewrite <- seq_shift, map_map.
    destruct (Z.le_gt_cases len 16) as [Sm|B].
    + (* everything is in the first chunk, the others are empty *)
      assert (forall l : list nat,
        List.concat (map (fun i => line_bytes payload (chunk ch len offset (S i))) l) = [])
        as E.
      { induction l as [|i l IHl]; [reflexivity|].
        cbn [map List.concat]. rewrite IHl, app_nil_r.
        unfold line_bytes, chunk. cbn [line_len line_ch].
        replace (Z.to_nat (Z.min 16 (len - 16 * Z.of_nat (S i)))) with 0%nat by lia.
        reflexivity. }
      rewrite E, app_nil_r. unfold line_bytes, chunk. cbn [line_len line_ch].
      f_equal; [|f_equal]; lia.
    + rewrite (map_ext _ (fun i => line_bytes payload
                 (chunk (ch + 16) (len - 16) (offset + 16) i))).
      2: { intros i. unfold line_bytes, chunk. cbn [line_len line_ch].
           f_equal; [|f_equal]; lia. }
      rewrite (IH (ch + 16) (len - 16) (offset + 16)) by lia.
      unfold line_bytes, chunk. cbn [line_len line_ch].
      replace (Z.to_nat (Z.min 16 (len - 16 * Z.of_nat 0))) with 16%nat by lia.
      replace (Z.to_nat (ch + 16 * Z.of_nat 0)) with (Z.to_nat ch) by lia.
      replace (Z.to_nat (ch + 16)) with (16 + Z.to_nat ch)%nat by lia.
      replace (Z.to_nat len) with (16 + Z.to_nat (len - 16))%nat by lia.
      rewrite <- skipn_skipn.
      symmetry. apply firstn_add_split.
Qed.

(** X13.  Given fuel for its loop, [print_payload] returns, and its lines
    show the first [len] bytes of the payload once each and in order; every
    line holds between 1 and 16 bytes and starts at the offset it is
    labelled with.  The remainder [line_width % len_rem] of the loop is
    always a full line of 16. *)
Theorem print_payload_covers_payload fuel (payload : list byte) len :
  len <= 16 * Z.of_nat fuel + 16 ->
  exists ls,
    print_payload fuel len = Some ls /\
    List.concat (map (line_bytes payload) ls) = firstn (Z.to_nat len) payload /\
    Forall (fun l => 1 <= line_len l <= 16 /\ line_ch l = line_offset l) ls.
Proof.
  intros Hf. rewrite (print_payload_closed_form fuel len Hf).
  eexists. split; [reflexivity|]. split.
  - rewrite map_map.
    destruct (Z.le_gt_cases len 0) as [N|P].
    + unfold chunk_count.
      assert ((len + 15) / 16 <= 0) as Z0.
      { apply Z.lt_succ_r. apply Z.div_lt_upper_bound; lia. }
      replace (Z.to_nat ((len + 15) / 16)) with 0%nat by lia.
      replace (Z.to_nat len) with 0%nat by lia. reflexivity.
    + rewrite (chunks_cover payload (chunk_count len) 0 len 0); [reflexivity|lia|lia|].
      unfold chunk_count. rewrite Z2Nat.id by (apply Z.div_pos; lia).
      pose proof (Z.mul_div_le (len + 15) 16).
      pose proof (Z.mod_pos_bound (len + 15) 16).
      pose proof (Z.div_mod (len + 15) 16). lia.
  - apply Forall_forall. intros l Hl. apply in_map_iff in Hl.
    destruct Hl as (i & <- & Hi). apply in_seq in Hi.
    unfold chunk. cbn [line_len line_ch line_offset].
    assert (Z.of_nat i < (len + 15) / 16) as B.
    { unfold chunk_count in Hi.
      destruct (Z.le_gt_cases ((len + 15) / 16) 0); lia. }
    pose proof (Z.div_mod (len + 15) 16).
    pose proof (Z.mod_pos_bound (len + 15) 16). lia.
Qed.

Lemma print_payload_covers_payload_witness :
  33 <= 16 * Z.of_nat 2 + 16 /\
  exists ls,
    print_payload 2 33 = Some ls /\
    List.concat (map (line_bytes tcp_frame) ls) = firstn (Z.to_nat 33) tcp_frame /\
    Forall (fun l => 1 <= line_len l <= 16 /\ line_ch l = line_offset l) ls.
Proof.
  split; [vm_compute; congruence|].
  apply (print_payload_covers_payload 2 tcp_frame 33). vm_compute; congruence.
Defined.

(** X14.  [print_payload] prints nothing for a length of 0 or less and
    otherwise the least number of 16-byte lines that hold [len] bytes, the
    line with index i labelled with the offset 16 i. *)
Theorem print_payload_line_count fuel len :
  len <= 16 * Z.of_nat fuel + 16 ->
  exists ls,
    print_payload fuel len = Some ls /\
    List.length ls = Z.to_nat ((len + 15) / 16) /\
    forall i l, nth_error ls i = Some l -> line_offset l = 16 * Z.of_nat i.
Proof.
  intros Hf. rewrite (print_payload_closed_form fuel len Hf).
  eexists. split; [reflexivity|]. split.
  - rewrite length_map, length_seq. reflexivity.
  - intros i l Hn. rewrite nth_error_map in Hn.
    destruct (nth_error (seq 0 (chunk_count len)) i) as [j|] eqn:E; [|discriminate].
    cbn [option_map] in Hn. injection Hn as <-.
    assert (i < chunk_count len)%nat as Hi.
    { assert (nth_error (seq 0 (chunk_count len)) i <> None) as N by congruence.
      apply nth_error_Some in N. rewrite length_seq in N. exact N. }
    rewrite nth_error_nth' with (d := 0%nat) in E by (rewrite length_seq; exact Hi).
    rewrite seq_nth in E by exact Hi. injection E as <-.
    unfold chunk. cbn [line_offset]. lia.
Qed.

Lemma print_payload_line_count_witness :
  33 <= 16 * Z.of_nat 2 + 16 /\
  exists ls,
    print_payload 2 33 = Some ls /\
    List.length ls = Z.to_nat ((33 + 15) / 16) /\
    forall i l, nth_error ls i = Some l -> line_offset l = 16 * Z.of_nat i.
Proof.
  split; [vm_compute; congruence|].
  apply (print_payload_line_count 2 33). vm_compute; congruence.
Defined.

(** ** print_hex_ascii_line *)

Lemma length_append (a b : string) :
  String.length (a ++ b) = (String.length a + String.length b)%nat.
Proof. induction a as [|c a IH]; cbn [append String.length]; [|rewrite IH]; reflexivity. Qed.

Lemma append_assoc (a b c : string) : (a ++ b) ++ c = a ++ (b ++ c).
Proof. induction a as [|x a IH]; cbn [append]; [|rewrite IH]; reflexivity. Qed.

Lemma all_printable_append (a b : string) :
  all_printable (a ++ b) = all_printable a && all_printable b.
Proof.
  induction a as [|c a IH]; cbn [append all_printable]; [reflexivity|].
  rewrite IH. apply andb_assoc.
Qed.

Lemma skipn_nth_error {A : Type} (l : list A) : forall n x,
  nth_error l n = Some x -> skipn n l = x :: skipn (S n) l.
Proof.
  induction l as [|y l IH]; intros [|n] x H; cbn in H; try discriminate.
  - injection H as ->. reflexivity.
  - cbn [skipn]. rewrite (IH n x H). reflexivity.
Qed.

(** A captured byte and the rest of the payload behind it. *)
Lemma load8_skipn payload ch :
  0 <= ch < captured payload ->
  exists b,
    load8 payload ch = Val (u_char b) /\
    skipn (Z.to_nat ch) payload = b :: skipn (Z.to_nat (ch + 1)) payload.
Proof.
  intros H. unfold load8, captured in *.
  destruct (Z.ltb_spec ch 0); [lia|].
  destruct (nth_error payload (Z.to_nat ch)) as [b|] eqn:E.
  - exists b. split; [reflexivity|].
    replace (Z.to_nat (ch + 1)) with (S (Z.to_nat ch)) by lia.
    apply skipn_nth_error. exact E.
  - apply nth_error_None in E. lia.
Qed.

Lemma hex_digit_printable n : 0 <= n < 16 -> printable (hex_digit n) = true.
Proof.
  intros H. replace n with (Z.of_nat (Z.to_nat n)) by lia.
  assert (Z.to_nat n < 16)%nat as B by lia.
  generalize dependent (Z.to_nat n). clear H. intros k B.
  do 16 (destruct k as [|k]; [reflexivity|]). lia.
Qed.

Lemma printf_02x_printable v :
  0 <= v < 256 -> all_printable (printf_02x v) = true /\ String.length (printf_02x v) = 2%nat.
Proof.
  intros H. unfold printf_02x. cbn [all_printable String.length].
  rewrite !hex_digit_printable; [split; reflexivity| |].
  - apply Z.mod_pos_bound. lia.
  - split; [apply Z.div_pos; lia|apply Z.div_lt_upper_bound; lia].
Qed.

Lemma hex_loop_in payload : forall count ch i,
  0 <= ch -> ch + Z.of_nat count <= captured payload ->
  exists hex,
    hex_loop payload ch i count = Val hex /\
    String.length hex =
      (3 * count + (if ((i <=? 7) && (7 <? i + Z.of_nat count))%Z then 1 else 0))%nat /\
    all_printable hex = true.
Proof.
  induction count as [|count IH]; intros ch i Hch Hc.
  - exists EmptyString. cbn [hex_loop]. rewrite Z.add_0_r.
    destruct (Z.leb_spec i 7), (Z.ltb_spec 7 i); try lia; repeat split; reflexivity.
  - cbn [hex_loop].
    destruct (load8_skipn payload ch) as (b & -> & _); [lia|]. cbn [bind].
    destruct (IH (ch + 1) (i + 1)) as (rest & -> & L & P); [lia|lia|]. cbn [bind].
    eexists. split; [reflexivity|].
    destruct (printf_02x_printable (u_char b) (u_char_range b)) as [P2 L2].
    split.
    + rewrite !length_append, L2, L.
      destruct (Z.eqb_spec i 7), (Z.leb_spec i 7), (Z.leb_spec (i + 1) 7),
        (Z.ltb_spec 7 (i + 1 + Z.of_nat count)),
        (Z.ltb_spec 7 (i + Z.of_nat (S count)));
        cbn [andb String.length]; lia.
    + rewrite !all_printable_append, P2, P.
      destruct (i =? 7); reflexivity.
Qed.

Lemma gap_loop_spec count :
  String.length (gap_loop count) = (3 * count)%nat /\ all_printable (gap_loop count) = true.
Proof.
  induction count as [|count [L P]]; [split; reflexivity|].
  cbn [gap_loop]. rewrite length_append, all_printable_append, L, P.
  split; [cbn [String.length]; lia|reflexivity].
Qed.

Lemma ascii_loop_in payload : forall count ch,
  0 <= ch -> ch + Z.of_nat count <= captured payload ->
  ascii_loop payload ch count =
    Val (ascii_column (firstn count (skipn (Z.to_nat ch) payload))).
Proof.
  induction count as [|count IH]; intros ch Hch Hc; [reflexivity|].
  cbn [ascii_loop].
  destruct (load8_skipn payload ch) as (b & -> & E); [lia|]. cbn [bind].
  rewrite IH by lia. cbn [bind]. rewrite E. reflexivity.
Qed.

Lemma ascii_column_printable bytes : all_printable (ascii_column bytes) = true.
Proof.
  unfold ascii_column.
  induction bytes as [|b bytes IH]; [reflexivity|].
  cbn [map string_of_list_ascii all_printable]. rewrite IH, andb_true_r.
  destruct (isprint (u_char b)) eqn:P; [|reflexivity].
  unfold printable. rewrite nat_ascii_embedding.
  - rewrite Z2Nat.id by (pose proof (u_char_range b); lia). exact P.
  - pose proof (u_char_range b). lia.
Qed.

Lemma uint_printable d : all_printable (NilEmpty.string_of_uint d) = true.
Proof.
  induction d; cbn [NilEmpty.string_of_uint all_printable];
    try rewrite IHd; reflexivity.
Qed.

Lemma to_string_printable n : all_printable (to_string n) = true.
Proof.
  unfold to_string.
  destruct (Z.to_int n) as [d|d]; cbn [NilZero.string_of_int].
  - unfold NilZero.string_of_uint. destruct d; try apply uint_printable. reflexivity.
  - cbn [all_printable]. unfold NilZero.string_of_uint.
    destruct d; try (rewrite uint_printable; reflexivity). reflexivity.
Qed.

Lemma pad0_spec width s :
  (width <= String.length (pad0 width s))%nat /\
  (width <= String.length s -> pad0 width s = s)%nat /\
  (all_printable s = true -> all_printable (pad0 width s) = true).
Proof.
  unfold pad0. split; [|split].
  - rewrite length_append.
    assert (forall k, String.length (string_of_list_ascii (repeat "0"%char k)) = k) as E.
    { induction k as [|k IH]; cbn [repeat string_of_list_ascii String.length];
        [|rewrite IH]; reflexivity. }
    rewrite E. lia.
  - intros H. replace (width - String.length s)%nat with 0%nat by lia. reflexivity.
  - intros P. rewrite all_printable_append, P, andb_true_r.
    induction (width - String.length s)%nat as [|k IH]; [reflexivity|].
    cbn [repeat string_of_list_ascii all_printable]. rewrite IH. reflexivity.
Qed.

Lemma printf_05d_spec n :
  (5 <= String.length (printf_05d n))%nat /\ all_printable (printf_05d n) = true.
Proof.
  unfold printf_05d. destruct (n <? 0).
  - destruct (pad0_spec 4 (to_string (- n))) as (L & _ & P).
    cbn [String.length all_printable]. rewrite P by apply to_string_printable.
    split; [lia|reflexivity].
  - destruct (pad0_spec 5 (to_string n)) as (L & _ & P).
    split; [exact L|apply P, to_string_printable].
Qed.

(** The text of a line all of whose bytes are captured. *)
Lemma print_hex_ascii_line_text payload ch len offset :
  0 <= ch -> 0 <= len <= 16 -> ch + len <= captured payload ->
  exists middle,
    print_hex_ascii_line payload ch len offset =
      Val (printf_05d offset ++ middle ++
           ascii_column
             (line_bytes payload
                {| line_ch := ch; line_len := len; line_offset := offset |}) ++
           newline) /\
    String.length middle = 55%nat /\
    all_printable middle = true.
Proof.
  intros Hch Hlen Hc. unfold print_hex_ascii_line, line_bytes.
  cbn [line_ch line_len].
  destruct (hex_loop_in payload (Z.to_nat len) ch 0) as (hex & -> & L & P); [lia|lia|].
  cbn [bind]. rewrite ascii_loop_in by lia. cbn [bind]. cbv zeta.
  exists ("   " ++ hex ++ (if len <? 8 then " " else EmptyString) ++
          (if len <? 16 then gap_loop (Z.to_nat (16 - len)) else EmptyString) ++
          "   ").
  split; [|split].
  - rewrite !append_assoc. reflexivity.
  - destruct (gap_loop_spec (Z.to_nat (16 - len))) as [G _].
    rewrite !length_append, L.
    destruct (Z.ltb_spec len 8), (Z.ltb_spec len 16),
      (Z.leb_spec 0 7), (Z.ltb_spec 7 (0 + Z.of_nat (Z.to_nat len)));
      cbn [andb String.length]; rewrite ?G; lia.
  - destruct (gap_loop_spec (Z.to_nat (16 - len))) as [_ G].
    rewrite !all_printable_append, P.
    destruct (len <? 8), (len <? 16); rewrite ?G; reflexivity.
Qed.

(** ** Width of decimal numbers *)

Lemma of_uint_acc_lower d : forall acc,
  Z.pos acc * 10 ^ Z.of_nat (Decimal.nb_digits d) <= Z.pos (Pos.of_uint_acc d acc).
Proof.
  induction d; intros acc; cbn [Pos.of_uint_acc Decimal.nb_digits];
    [rewrite Z.pow_0_r; lia|..];
    (rewrite Nat2Z.inj_succ, Z.pow_succ_r by lia;
     eapply Z.le_trans; [|apply IHd];
     rewrite Pos2Z.inj_add || idtac; rewrite Pos2Z.inj_mul;
     assert (0 <= 10 ^ Z.of_nat (Decimal.nb_digits d)) by (apply Z.pow_nonneg; lia);
     nia).
Qed.

Lemma to_uint_digits p :
  10 ^ (Z.of_nat (Decimal.nb_digits (Pos.to_uint p)) - 1) <= Z.pos p.
Proof.
  pose proof (DecimalPos.Unsigned.of_to p) as E1.
  pose proof (DecimalPos.Unsigned.to_of (Pos.to_uint p)) as E2.
  rewrite E1 in E2. cbn [N.to_uint] in E2.
  assert (forall l acc,
            Pos.of_uint_acc l acc = p ->
            10 ^ (Z.of_nat (S (Decimal.nb_digits l)) - 1) <= Z.pos p) as K.
  { intros l acc <-.
    replace (Z.of_nat (S (Decimal.nb_digits l)) - 1)
      with (Z.of_nat (Decimal.nb_digits l)) by lia.
    eapply Z.le_trans; [|apply of_uint_acc_lower].
    assert (0 <= 10 ^ Z.of_nat (Decimal.nb_digits l)) by (apply Z.pow_nonneg; lia).
    nia. }
  destruct (Pos.to_uint p) as [|l|l|l|l|l|l|l|l|l|l] eqn:D;
    cbn [Pos.of_uint] in E1; try discriminate E1;
    try (injection E1 as E1; cbn [Decimal.nb_digits]; exact (K l _ E1)).
  (* a leading zero *)
  exfalso. unfold Decimal.unorm in E2. cbn [Decimal.nzhead] in E2.
  destruct (Decimal.nzhead l) eqn:Z0.
  - injection E2 as E2. subst l. discriminate E1.
  - apply (DecimalFacts.nzhead_nonzero l l). congruence.
  - discriminate E2.
  - discriminate E2.
  - discriminate E2.
  - discriminate E2.
  - discriminate E2.
  - discriminate E2.
  - discriminate E2.
  - discriminate E2.
  - discriminate E2.
Qed.

Lemma string_of_uint_length d :
  String.length (NilEmpty.string_of_uint d) = Decimal.nb_digits d.
Proof.
  induction d; cbn [NilEmpty.string_of_uint String.length Decimal.nb_digits];
    try rewrite IHd; reflexivity.
Qed.

(** The decimal of a number below 10^k has at most k digits. *)
Lemma to_string_length n k :
  1 <= k -> Z.abs n < 10 ^ k ->
  (String.length (to_string n) <= Z.to_nat k + (if (n <? 0)%Z then 1 else 0))%nat.
Proof.
  intros Hk Hn. unfold to_string.
  assert (forall p, Z.pos p < 10 ^ k ->
            (String.length (NilZero.string_of_uint (Pos.to_uint p)) <= Z.to_nat k)%nat)
    as B.
  { intros p Hp. unfold NilZero.string_of_uint.
    pose proof (DecimalPos.Unsigned.to_uint_nonnil p) as NN.
    pose proof (to_uint_digits p) as L.
    assert (String.length (NilEmpty.string_of_uint (Pos.to_uint p)) <= Z.to_nat k)%nat.
    { rewrite string_of_uint_length.
      destruct (Z.le_gt_cases (Z.of_nat (Decimal.nb_digits (Pos.to_uint p))) k); [lia|].
      assert (10 ^ k <= 10 ^ (Z.of_nat (Decimal.nb_digits (Pos.to_uint p)) - 1))
        by (apply Z.pow_le_mono_r; lia).
      lia. }
    destruct (Pos.to_uint p); try assumption. contradiction. }
  destruct n as [|p|p]; cbn [Z.to_int NilZero.string_of_int Z.ltb Z.compare].
  - cbn. lia.
  - specialize (B p Hn). lia.
  - cbn [String.length]. specialize (B p Hn). lia.
Qed.

Lemma pad0_length width s :
  String.length (pad0 width s) = Nat.max width (String.length s).
Proof.
  unfold pad0. rewrite length_append.
  assert (forall k, String.length (string_of_list_ascii (repeat "0"%char k)) = k) as E.
  { induction k as [|k IH]; cbn [repeat string_of_list_ascii String.length];
      [|rewrite IH]; reflexivity. }
  rewrite E. lia.
Qed.




(** X16.  Apart from the closing newline, a line of at most 16 captured
    bytes consists of printable characters only, whatever the bytes are:
    binary data never reaches the terminal. *)
Theorem print_hex_ascii_line_printable payload ch len offset :
  0 <= ch -> 0 <= len <= 16 -> ch + len <= captured payload ->
  exists body,
    print_hex_ascii_line payload ch len offset = Val (body ++ newline) /\
    all_printable body = true.
Proof.
  intros Hch Hlen Hc.
  destruct (print_hex_ascii_line_text payload ch len offset Hch Hlen Hc)
    as (middle & E & _ & P).
  eexists. split.
  - rewrite E. rewrite <- !append_assoc. reflexivity.
  - rewrite !all_printable_append, P, ascii_column_printable.
    destruct (printf_05d_spec offset) as [_ ->]. reflexivity.
Qed.

Lemma print_hex_ascii_line_printable_witness :
  (0 <= 0 /\ 0 <= 16 <= 16 /\ 0 + 16 <= captured tcp_frame) /\
  exists body,
    print_hex_ascii_line tcp_frame 0 16 0 = Val (body ++ newline) /\
    all_printable body = true.
Proof.
  split; [repeat split; vm_compute; congruence|].
  apply (print_hex_ascii_line_printable tcp_frame 0 16 0);
    repeat split; vm_compute; congruence.
Defined.

(** The example of the comment above [print_hex_ascii_line], as the code
    prints it: four spaces, not three, stand before the ASCII column. *)
Example print_hex_ascii_line_http :
  print_hex_ascii_line http_payload 0 16 0 =
    Val ("00000   47 45 54 20 2f 20 48 54  54 50 2f 31 2e 31 0d 0a    GET / HTTP/1.1.."
         ++ newline).
Proof. reflexivity. Qed.


(** ** main *)

Ltac not_in_trace H :=
  unfold print_app_banner, print_app_usage in H;
  repeat (rewrite in_app_iff in H || cbn [In] in H);
  repeat match type of H with
  | _ \/ _ => destruct H as [H|H]
  | context [if ?c then _ else _] => destruct c; cbn [In] in H
  end; try discriminate H; try contradiction.

Ltac find_in :=
  lazymatch goal with
  | |- In _ (_ :: _) => first [left; reflexivity | right; find_in]
  | |- In _ (_ ++ _)%list =>
      apply in_or_app; first [solve [left; find_in] | right; find_in]
  | |- In _ (map _ _) => apply in_map; assumption
  end.

Lemma in_map_callback e evs : In (callback e) (map callback evs) -> In e evs.
Proof.
  intros H. apply in_map_iff in H. destruct H as (x & E & Hin).
  injection E as ->. exact Hin.
Qed.


(** The runs of [main], one goal for each way it ends. *)
Ltac main_leaves plocal_ip argv w :=
  unfold main; cbv zeta;
  destruct (Z.ltb_spec (get_process_mapping_ret w) 0) as [?Hm|?Hm];
  [ | destruct (Z.eqb_spec (Z.of_nat (List.length argv)) 2) as [?Ha|?Ha];
      [ | destruct (Z.ltb_spec 2 (Z.of_nat (List.length argv))) as [?Ha|?Ha];
          [ | destruct (pcap_lookupdev_ret w) eqn:?Hd ] ] ];
  try match goal with
  | |- context [negb (pcap_open_live_ret w)] =>
      destruct (pcap_open_live_ret w) eqn:?Ho; cbn [negb];
      [ destruct (Z.eqb_spec (pcap_datalink_ret w) DLT_EN10MB) as [?Hl|?Hl];
        cbn [negb];
        [ destruct (Z.eqb_spec (pcap_compile_ret w) (-1)) as [?Hc|?Hc];
          [ | destruct (Z.eqb_spec (pcap_setfilter_ret w) (-1)) as [?Hf|?Hf];
              [ | destruct (pcap_loop plocal_ip 100 (delivered w)) eqn:?Hp;
                  cbn [bind] ] ]
        | ]
      | ]
  end.

(** X18.  Whenever [main] ends through [exit], the status is EXIT_FAILURE,
    a message went to stderr, and neither [pcap_loop] nor the callback was
    run: a failed set-up never accounts a packet. *)
Theorem failure_exit_is_reported plocal_ip argv w status tr :
  main plocal_ip argv w = Val (Exited status, tr) ->
  status = EXIT_FAILURE /\
  (exists msg, In (err msg) tr) /\
  ~ In (call_pcap_loop 100) tr /\
  (forall e, ~ In (callback e) tr).
Proof.
  main_leaves plocal_ip argv w; intros E; try discriminate E;
    injection E as <- <-;
    (split; [reflexivity|]);
    (split; [eexists; find_in|]);
    (split; [intros Htr; not_in_trace Htr | intros e Htr; not_in_trace Htr]).
Qed.

Lemma failure_exit_is_reported_witness :
  main "10.0.0.1" ["sniffex"; "eth0"; "eth1"] (good_world [(hdr_of tcp_frame, tcp_frame)])
    = Val (Exited 1,
           (call_get_process_mapping :: print_app_banner ++
            [err "error: unrecognized command-line options"; err EmptyString] ++
            print_app_usage)%list) /\
  1 = EXIT_FAILURE.
Proof.
  split; [reflexivity|].
  apply (failure_exit_is_reported "10.0.0.1" ["sniffex"; "eth0"; "eth1"]
           (good_world [(hdr_of tcp_frame, tcp_frame)]) 1
           (call_get_process_mapping :: print_app_banner ++
            [err "error: unrecognized command-line options"; err EmptyString] ++
            print_app_usage)%list).
  reflexivity.
Defined.

(** X19.  The filter [main] compiles is always "ip", not optimised, with
    the network number [pcap_lookupnet] gave, or 0 when that call failed: a
    failure of [pcap_lookupnet] does not end the run. *)
Theorem filter_compiled_with_lookupnet plocal_ip argv w o tr filter_exp optimize netmask :
  main plocal_ip argv w = Val (o, tr) ->
  In (call_pcap_compile filter_exp optimize netmask) tr ->
  filter_exp = "ip" /\ optimize = 0 /\
  netmask = (if pcap_lookupnet_ret w =? -1 then 0 else lookupnet_net w).
Proof.
  main_leaves plocal_ip argv w; intros E; try discriminate E;
    injection E as <- <-; intros Htr; not_in_trace Htr;
    try (apply in_map_iff in Htr; destruct Htr as (? & Htr & _); discriminate Htr);
    try (injection Htr as <- <- <-; repeat split; reflexivity).
Qed.

(** X20.  A run of [main] depends on at most the first 100 delivered
    frames. *)
Theorem main_uses_first_100_frames plocal_ip argv w :
  main plocal_ip argv w =
  main plocal_ip argv (with_delivered w (firstn 100 (delivered w))).
Proof.
  unfold main, pcap_loop, with_delivered.
  cbn [get_process_mapping_ret pcap_lookupdev_ret pcap_lookupnet_ret
       lookupnet_net lookupnet_mask pcap_open_live_ret pcap_datalink_ret
       pcap_compile_ret pcap_setfilter_ret lookupdev_errbuf lookupnet_errbuf
       open_live_errbuf compile_geterr setfilter_geterr delivered].
  change (Z.to_nat 100) with 100%nat.
  rewrite firstn_firstn. reflexivity.
Qed.

Lemma run_callback_in plocal_ip frames : forall evs e,
  run_callback plocal_ip frames = Val evs -> In e evs ->
  exists header packet evs',
    In (header, packet) frames /\
    got_packet plocal_ip header packet = Val evs' /\ In e evs'.
Proof.
  induction frames as [|[h p] frames IH]; intros evs e R Hin.
  - injection R as <-. contradiction.
  - cbn [run_callback] in R.
    destruct (got_packet plocal_ip h p) as [evs1|] eqn:G; cbn [bind] in R; [|discriminate].
    destruct (run_callback plocal_ip frames) as [evs2|]; cbn [bind] in R; [|discriminate].
    injection R as <-. apply in_app_or in Hin. destruct Hin as [Hin|Hin].
    + exists h, p, evs1. split; [left; reflexivity|]. split; assumption.
    + destruct (IH evs2 e eq_refl Hin) as (h' & p' & evs' & I & G' & I').
      exists h', p', evs'. split; [right; exact I|]. split; assumption.
Qed.

(** X21.  Every event [main] records for the callback was produced by
    [got_packet] on one of the first 100 delivered frames. *)
Theorem callback_events_come_from_frames plocal_ip argv w o tr e :
  main plocal_ip argv w = Val (o, tr) ->
  In (callback e) tr ->
  exists header packet evs,
    In (header, packet) (firstn 100 (delivered w)) /\
    got_packet plocal_ip header packet = Val evs /\ In e evs.
Proof.
  main_leaves plocal_ip argv w; intros E; try discriminate E;
    injection E as <- <-; intros Htr; not_in_trace Htr;
    apply in_map_callback in Htr;
    match goal with
    | R : pcap_loop _ _ _ = Val _ |- _ =>
        unfold pcap_loop in R; change (Z.to_nat 100) with 100%nat in R;
        exact (run_callback_in _ _ _ _ R Htr)
    end.
Qed.

Lemma run_callback_total plocal_ip frames :
  forallb frame_in_bounds frames = true ->
  exists evs,
    run_callback plocal_ip frames = Val evs /\
    forall header packet evs' e,
      In (header, packet) frames ->
      got_packet plocal_ip header packet = Val evs' -> In e evs' -> In e evs.
Proof.
  induction frames as [|[h p] frames IH]; intros F.
  - exists []. split; [reflexivity|]. intros ? ? ? ? [].
  - cbn [forallb] in F. apply andb_true_iff in F. destruct F as [B F].
    unfold frame_in_bounds in B. cbn [fst snd] in B.
    apply andb_true_iff in B. destruct B as [B Gb].
    apply andb_true_iff in B. destruct B as [B B3].
    apply andb_true_iff in B. destruct B as [B1 B2].
    apply Z.leb_le in B1, B2. apply Z.ltb_lt in B3.
    pose proof (got_packet_in_bounds_cases plocal_ip h p (conj B1 B2) B3) as G.
    rewrite Gb in G. destruct G as (evs1 & G).
    destruct (IH F) as (evs2 & R & A).
    exists (evs1 ++ evs2)%list. split.
    + cbn [run_callback]. rewrite G, R. reflexivity.
    + intros h' p' evs' e [I|I] G' Hin.
      * injection I as <- <-. rewrite G in G'. injection G' as <-.
        apply in_or_app. left. exact Hin.
      * apply in_or_app. right. exact (A h' p' evs' e I G' Hin).
Qed.

(** X22.  When the set-up succeeds and [got_packet] stays inside the
    captured bytes on each of the first 100 delivered frames, [main] runs
    to its end and returns 0 with the events of every one of these frames
    recorded: no report about one frame keeps the later frames from being
    processed. *)
Theorem capture_processes_every_frame plocal_ip argv w :
  setup_ok argv w = true ->
  forallb frame_in_bounds (firstn 100 (delivered w)) = true ->
  exists tr,
    main plocal_ip argv w = Val (Returned 0, tr) /\
    In call_show_process_table tr /\
    forall header packet evs e,
      In (header, packet) (firstn 100 (delivered w)) ->
      got_packet plocal_ip header packet = Val evs -> In e evs ->
      In (callback e) tr.
Proof.
  intros S F.
  destruct (run_callback_total plocal_ip _ F) as (evs & R & A).
  assert (pcap_loop plocal_ip 100 (delivered w) = Val evs) as L by exact R.
  unfold setup_ok in S.
  apply andb_true_iff in S. destruct S as [S Sf].
  apply andb_true_iff in S. destruct S as [S Sc].
  apply andb_true_iff in S. destruct S as [S Sl].
  apply andb_true_iff in S. destruct S as [S So].
  apply andb_true_iff in S. destruct S as [Sm Sd].
  apply Z.leb_le in Sm. apply Z.eqb_eq in Sl.
  apply negb_true_iff, Z.eqb_neq in Sc. apply negb_true_iff, Z.eqb_neq in Sf.
  assert (List.length argv = 2%nat \/
          ((List.length argv < 2)%nat /\ pcap_lookupdev_ret w <> None)) as Sd'.
  { apply orb_true_iff in Sd. destruct Sd as [Sd|Sd].
    - left. apply Nat.eqb_eq. exact Sd.
    - right. apply andb_true_iff in Sd. destruct Sd as [Sd1 Sd2].
      apply Nat.ltb_lt in Sd1. split; [exact Sd1|].
      destruct (pcap_lookupdev_ret w); [discriminate|discriminate Sd2]. }
  clear Sd.
  main_leaves plocal_ip argv w;
    try lia; try congruence; try contradiction;
    try (destruct Sd' as [Sd'|[_ Sd']]; [lia|contradiction]);
    match goal with
    | Hq : Val _ = Val _ |- _ => injection Hq as ->
    end;
    (eexists; split; [reflexivity|]; split; [find_in|]);
    intros h p evs' e Hfr G Hin;
    pose proof (A h p evs' e Hfr G Hin) as M;
    find_in.
Qed.

Lemma capture_processes_every_frame_witness :
  (setup_ok ["sniffex"]
     (good_world [(hdr_of short_ihl_frame, short_ihl_frame);
                  (hdr_of tcp_frame, tcp_frame)]) = true /\
   forallb frame_in_bounds
     (firstn 100 [(hdr_of short_ihl_frame, short_ihl_frame);
                  (hdr_of tcp_frame, tcp_frame)]) = true) /\
  exists tr,
    main "10.0.0.1" ["sniffex"]
      (good_world [(hdr_of short_ihl_frame, short_ihl_frame);
                   (hdr_of tcp_frame, tcp_frame)]) = Val (Returned 0, tr) /\
    In call_show_process_table tr /\
    forall header packet evs e,
      In (header, packet)
        (firstn 100 [(hdr_of short_ihl_frame, short_ihl_frame);
                     (hdr_of tcp_frame, tcp_frame)]) ->
      got_packet "10.0.0.1" header packet = Val evs -> In e evs ->
      In (callback e) tr.
Proof.
  split; [split; reflexivity|].
  apply (capture_processes_every_frame "10.0.0.1" ["sniffex"]
           (good_world [(hdr_of short_ihl_frame, short_ihl_frame);
                        (hdr_of tcp_frame, tcp_frame)])); reflexivity.
Defined.


Lemma filter_compiled_with_lookupnet_witness :
  exists o tr,
    (main "10.0.0.1" ["sniffex"] (good_world []) = Val (o, tr) /\
     In (call_pcap_compile "ip" 0 10) tr) /\
    "ip" = "ip" /\ 0 = 0 /\
    10 = (if pcap_lookupnet_ret (good_world []) =? -1 then 0
          else lookupnet_net (good_world [])).
Proof.
  eexists. eexists.
  assert (main "10.0.0.1" ["sniffex"] (good_world []) = Val (_, _)) as E
    by reflexivity.
  assert (In (call_pcap_compile "ip" 0 10)
            (call_get_process_mapping :: print_app_banner ++
             [call_pcap_lookupdev; call_pcap_lookupnet "eth0";
              out "Device: eth0"; out "Number of packets: 100";
              out "Filter expression: ip"; call_pcap_open_live "eth0" 1518 1 1000;
              call_pcap_datalink; call_pcap_compile "ip" 0 10; call_pcap_setfilter;
              call_pcap_loop 100; call_pcap_freecode; call_pcap_close;
              out EmptyString; out "Capture complete.";
              call_show_process_table])%list) as S
    by (cbn; tauto).
  split; [split; [exact E|exact S]|].
  exact (filter_compiled_with_lookupnet "10.0.0.1" ["sniffex"] (good_world [])
           _ _ "ip" 0 10 E S).
Defined.

Lemma callback_events_come_from_frames_witness :
  exists o tr,
    (main "10.0.0.1" ["sniffex"] (good_world [(hdr_of tcp_frame, tcp_frame)])
       = Val (o, tr) /\
     In (callback (update_byte_count "5000" 20 true)) tr) /\
    exists header packet evs,
      In (header, packet)
        (firstn 100 (delivered (good_world [(hdr_of tcp_frame, tcp_frame)]))) /\
      got_packet "10.0.0.1" header packet = Val evs /\
      In (update_byte_count "5000" 20 true) evs.
Proof.
  eexists. eexists.
  assert (main "10.0.0.1" ["sniffex"] (good_world [(hdr_of tcp_frame, tcp_frame)])
            = Val (_, _)) as E by reflexivity.
  assert (In (callback (update_byte_count "5000" 20 true))
            (call_get_process_mapping :: print_app_banner ++
             [call_pcap_lookupdev; call_pcap_lookupnet "eth0";
              out "Device: eth0"; out "Number of packets: 100";
              out "Filter expression: ip"; call_pcap_open_live "eth0" 1518 1 1000;
              call_pcap_datalink; call_pcap_compile "ip" 0 10; call_pcap_setfilter;
              call_pcap_loop 100; callback (update_byte_count "5000" 20 true);
              call_pcap_freecode; call_pcap_close;
              out EmptyString; out "Capture complete.";
              call_show_process_table])%list) as S
    by (cbn; tauto).
  split; [split; [exact E|exact S]|].
  exact (callback_events_come_from_frames "10.0.0.1" ["sniffex"]
           (good_world [(hdr_of tcp_frame, tcp_frame)]) _ _ _ E S).
Defined.

(** X23.  The device [main] opens is the command-line argument when there
    is exactly one, else the device [pcap_lookupdev] found; it is always
    opened with snapshot length 1518, in promiscuous mode and with a timeout
    of 1000 ms. *)
Theorem device_opened plocal_ip argv w o tr dev snaplen promisc to_ms :
  main plocal_ip argv w = Val (o, tr) ->
  In (call_pcap_open_live dev snaplen promisc to_ms) tr ->
  snaplen = SNAP_LEN /\ promisc = 1 /\ to_ms = 1000 /\
  (if (List.length argv =? 2)%nat then dev = nth 1 argv EmptyString
   else pcap_lookupdev_ret w = Some dev).
Proof.
  main_leaves plocal_ip argv w; intros E; try discriminate E;
    injection E as <- <-; intros Htr; not_in_trace Htr;
    try (apply in_map_iff in Htr; destruct Htr as (? & Htr & _); discriminate Htr);
    injection Htr as <- <- <- <-;
    (repeat split; try reflexivity);
    match goal with
    | Hq : Z.of_nat (List.length argv) = 2 |- _ =>
        replace (List.length argv) with 2%nat by lia; reflexivity
    | Hq : Z.of_nat (List.length argv) <> 2 |- _ =>
        destruct (Nat.eqb_spec (List.length argv) 2); [lia|first [reflexivity|assumption]]
    end.
Qed.

Lemma device_opened_witness :
  exists o tr,
    (main "10.0.0.1" ["sniffex"; "wlan0"] (good_world []) = Val (o, tr) /\
     In (call_pcap_open_live "wlan0" 1518 1 1000) tr) /\
    1518 = SNAP_LEN /\ 1 = 1 /\ 1000 = 1000 /\ "wlan0" = "wlan0".
Proof.
  eexists. eexists.
  assert (main "10.0.0.1" ["sniffex"; "wlan0"] (good_world []) = Val (_, _)) as E
    by reflexivity.
  assert (In (call_pcap_open_live "wlan0" 1518 1 1000)
            (call_get_process_mapping :: print_app_banner ++
             [call_pcap_lookupnet "wlan0";
              out "Device: wlan0"; out "Number of packets: 100";
              out "Filter expression: ip"; call_pcap_open_live "wlan0" 1518 1 1000;
              call_pcap_datalink; call_pcap_compile "ip" 0 10; call_pcap_setfilter;
              call_pcap_loop 100; call_pcap_freecode; call_pcap_close;
              out EmptyString; out "Capture complete.";
              call_show_process_table])%list) as S
    by (cbn; tauto).
  split; [split; [exact E|exact S]|].
  exact (device_opened "10.0.0.1" ["sniffex"; "wlan0"] (good_world [])
           _ _ "wlan0" 1518 1 1000 E S).
Defined.

(** ** Lines and captured bytes *)

Lemma hex_loop_past payload : forall count ch i,
  0 <= ch -> (0 < count)%nat -> captured payload < ch + Z.of_nat count ->
  exists off, hex_loop payload ch i count = ReadPast off /\ captured payload <= off.
Proof.
  induction count as [|count IH]; intros ch i Hch Hn Hc; [lia|].
  cbn [hex_loop].
  destruct (load8 payload ch) as [b|off] eqn:E; cbn [bind].
  - apply load8_val in E.
    destruct (IH (ch + 1) (i + 1)) as (off & -> & B); [lia|lia|lia|].
    exists off. split; [reflexivity|exact B].
  - apply load8_past in E. exists off. split; [reflexivity|lia].
Qed.

(** X24.  [print_hex_ascii_line] completes exactly when it is asked for no
    byte or the [len] bytes from [ch] on are captured; asked for more, it
    reads at an offset that was not captured. *)
Theorem print_hex_ascii_line_in_bounds_iff payload ch len offset :
  0 <= ch -> 0 <= len ->
  if (len =? 0) || (ch + len <=? captured payload)
  then exists text, print_hex_ascii_line payload ch len offset = Val text
  else exists off,
    print_hex_ascii_line payload ch len offset = ReadPast off /\
    captured payload <= off.
Proof.
  intros Hch Hlen. unfold print_hex_ascii_line.
  destruct (Z.eqb_spec len 0) as [->|N]; cbn [orb].
  { cbn [Z.to_nat hex_loop ascii_loop bind]. eexists. reflexivity. }
  destruct (Z.leb_spec (ch + len) (captured payload)) as [I|O].
  - destruct (hex_loop_in payload (Z.to_nat len) ch 0) as (hex & -> & _); [lia|lia|].
    cbn [bind]. rewrite ascii_loop_in by lia. cbn [bind]. eexists. reflexivity.
  - destruct (hex_loop_past payload (Z.to_nat len) ch 0) as (off & -> & B);
      [lia|lia|lia|].
    exists off. split; [reflexivity|exact B].
Qed.

Lemma print_hex_ascii_line_in_bounds_iff_witness :
  (0 <= 70 /\ 0 <= 5) /\
  exists off,
    print_hex_ascii_line tcp_frame 70 5 48 = ReadPast off /\
    captured tcp_frame <= off.
Proof.
  split; [split; vm_compute; congruence|].
  apply (print_hex_ascii_line_in_bounds_iff tcp_frame 70 5 48);
    vm_compute; congruence.
Defined.

(** X25.  For a length that the captured payload covers, every line
    [print_payload] asks for is printed without a read past the captured
    bytes. *)
Theorem print_payload_stays_in_bounds fuel payload len :
  len <= 16 * Z.of_nat fuel + 16 ->
  len <= captured payload ->
  exists ls,
    print_payload fuel len = Some ls /\
    Forall (fun l => exists text,
              print_hex_ascii_line payload (line_ch l) (line_len l) (line_offset l)
                = Val text) ls.
Proof.
  intros Hf Hc. rewrite (print_payload_closed_form fuel len Hf).
  eexists. split; [reflexivity|].
  apply Forall_forall. intros l Hl. apply in_map_iff in Hl.
  destruct Hl as (i & <- & Hi). apply in_seq in Hi.
  unfold chunk. cbn [line_len line_ch line_offset].
  assert (Z.of_nat i < (len + 15) / 16) as B.
  { unfold chunk_count in Hi.
    destruct (Z.le_gt_cases ((len + 15) / 16) 0); lia. }
  pose proof (Z.div_mod (len + 15) 16).
  pose proof (Z.mod_pos_bound (len + 15) 16).
  destruct (print_hex_ascii_line_text payload (0 + 16 * Z.of_nat i)
              (Z.min 16 (len - 16 * Z.of_nat i)) (0 + 16 * Z.of_nat i))
    as (middle & E & _); [lia|lia|lia|].
  eexists. exact E.
Qed.

Lemma print_payload_stays_in_bounds_witness :
  (33 <= 16 * Z.of_nat 2 + 16 /\ 33 <= captured tcp_frame) /\
  exists ls,
    print_payload 2 33 = Some ls /\
    Forall (fun l => exists text,
              print_hex_ascii_line tcp_frame (line_ch l) (line_len l) (line_offset l)
                = Val text) ls.
Proof.
  split; [split; vm_compute; congruence|].
  apply (print_payload_stays_in_bounds 2 tcp_frame 33); vm_compute; congruence.
Defined.

(** X26.  Called on its own, [dump_UDP_packet] never reads past the bytes
    its [capture_len] argument vouches for, whatever the frame holds and
    whatever [match_val] it is given. *)
Theorem dump_UDP_packet_stays_in_bounds packet t capture_len m :
  0 <= capture_len <= captured packet ->
  capture_len < 2 ^ 32 ->
  exists evs, dump_UDP_packet packet t capture_len m = Val evs.
Proof. apply dump_UDP_packet_in_bounds. Qed.

Lemma dump_UDP_packet_stays_in_bounds_witness :
  (0 <= 42 <= captured udp_loopback_frame /\ 42 < 2 ^ 32) /\
  exists evs,
    dump_UDP_packet udp_loopback_frame (ts (hdr_of udp_loopback_frame)) 42 3
      = Val evs.
Proof.
  split; [split; [split|]; vm_compute; congruence|].
  apply (dump_UDP_packet_stays_in_bounds udp_loopback_frame
           (ts (hdr_of udp_loopback_frame)) 42 3);
    [split|]; vm_compute; congruence.
Defined.

(** ** timestamp_string *)

Lemma to_int_range x : - 2 ^ 31 <= to_int x < 2 ^ 31.
Proof.
  unfold to_int. pose proof (Z.mod_pos_bound (x + 2 ^ 31) (2 ^ 32)). lia.
Qed.

(** X27.  The text of [timestamp_string] has at most 23 characters for
    every timestamp: with its closing NUL it always fits the 256-byte
    static buffer [sprintf] writes it to. *)
Theorem timestamp_string_fits_buffer t :
  (String.length (timestamp_string t) <= 23)%nat /\
  (String.length (timestamp_string t) + 1 <= 256)%nat.
Proof.
  assert (String.length (timestamp_string t) <= 23)%nat as B; [|split; [exact B|lia]].
  unfold timestamp_string, printf_06d.
  pose proof (to_int_range (tv_sec t)) as Rs.
  pose proof (to_int_range (tv_usec t)) as Ru.
  assert (2 ^ 31 < 10 ^ 10) as P by (vm_compute; reflexivity).
  pose proof (to_string_length (to_int (tv_sec t)) 10) as Ls.
  rewrite !length_append. cbn [String.length].
  assert (String.length (to_string (to_int (tv_sec t))) <= 11)%nat as Ls'.
  { destruct (to_int (tv_sec t) <? 0); change (Z.to_nat 10) with 10%nat in Ls; lia. }
  destruct (Z.ltb_spec (to_int (tv_usec t)) 0) as [N|N].
  - cbn [String.length]. rewrite pad0_length.
    pose proof (to_string_length (- to_int (tv_usec t)) 10) as Lu.
    destruct (Z.ltb_spec (- to_int (tv_usec t)) 0); [lia|].
    change (Z.to_nat 10) with 10%nat in Lu. lia.
  - rewrite pad0_length.
    pose proof (to_string_length (to_int (tv_usec t)) 10) as Lu.
    destruct (Z.ltb_spec (to_int (tv_usec t)) 0); [lia|].
    change (Z.to_nat 10) with 10%nat in Lu. lia.
Qed.

(** X28.  For a timestamp of the 32-bit era with a proper microsecond
    part, [timestamp_string] is the seconds in decimal, a point and the
    microseconds in exactly six digits. *)
Theorem timestamp_string_six_digits t :
  0 <= tv_sec t < 2 ^ 31 ->
  0 <= tv_usec t < 1000000 ->
  exists frac,
    timestamp_string t = to_string (tv_sec t) ++ "." ++ frac /\
    frac = pad0 6 (to_string (tv_usec t)) /\
    String.length frac = 6%nat.
Proof.
  intros Hs Hu. unfold timestamp_string, printf_06d, to_int.
  replace ((tv_sec t + 2 ^ 31) mod 2 ^ 32 - 2 ^ 31) with (tv_sec t)
    by (rewrite Z.mod_small by lia; lia).
  replace ((tv_usec t + 2 ^ 31) mod 2 ^ 32 - 2 ^ 31) with (tv_usec t)
    by (rewrite Z.mod_small by lia; lia).
  destruct (Z.ltb_spec (tv_usec t) 0); [lia|].
  eexists. split; [reflexivity|]. split; [reflexivity|].
  rewrite pad0_length.
  pose proof (to_string_length (tv_usec t) 6) as L.
  destruct (Z.ltb_spec (tv_usec t) 0); [lia|].
  change (Z.to_nat 6) with 6%nat in L.
  assert (Z.abs (tv_usec t) < 10 ^ 6) by (change (10 ^ 6) with 1000000; lia).
  lia.
Qed.

Lemma timestamp_string_six_digits_witness :
  (0 <= 1700000000 < 2 ^ 31 /\ 0 <= 42 < 1000000) /\
  exists frac,
    timestamp_string {| tv_sec := 1700000000; tv_usec := 42 |}
      = "1700000000" ++ "." ++ frac /\
    frac = "000042" /\
    String.length frac = 6%nat.
Proof.
  split; [repeat split; vm_compute; congruence|].
  apply (timestamp_string_six_digits {| tv_sec := 1700000000; tv_usec := 42 |});
    split; vm_compute; congruence.
Defined.
